(** * Office-document to PDF processors: a shallow embedding

    Source: [src/lib/pdf/processors/pptx-to-pdf.ts] and its sibling module
    for Word documents.  Both modules have the same shape: a module-level
    converter provider ([getConverter]) and a processor class whose
    [process] method validates one file, obtains the converter, races the
    conversion against a timer while a synthetic ticker advances the
    progress value, and packages the result.

    Conventions of the embedding:
    - JS strings are [string]; [toLowerCase] and the [/i] flag of the
      extension pattern act on the ASCII letters (no other character maps
      to a letter of the extension tables).
    - JS numbers that carry progress are finite doubles, held as the
      rationals [Q] they denote; the one product the code computes on them,
      [percent * 0.8], is rounded as IEEE-754 binary64 rounds it
      ([Js.mul_double]); the sums [progress + 1] are taken on small whole
      numbers, where they are exact.  [NaN] and the infinities are left
      out.  Byte counts and milliseconds are naturals [N].
    - An [async] function is a state transformer; what the environment does
      while the function is suspended at an [await] (engine reports,
      settlement of promises, timer callbacks, a call of [cancel()]) is read
      from a [Scenario]. *)

From Stdlib Require Import String Ascii List Bool Arith NArith ZArith QArith Qminmax Qround
  Lia Lqa DecimalString Permutation.
Import ListNotations.
Open Scope string_scope.

(** ** Strings *)

Module Js.

(** [String.prototype.toLowerCase], ASCII letters. *)
Definition toLowerCase_char (c : ascii) : ascii :=
  let n := nat_of_ascii c in
  if andb (65 <=? n)%nat (n <=? 90)%nat then ascii_of_nat (n + 32) else c.

Fixpoint toLowerCase (s : string) : string :=
  match s with
  | EmptyString => EmptyString
  | String c s' => String (toLowerCase_char c) (toLowerCase s')
  end.

(** [s.split(sep)] for a one-character separator: never empty. *)
Fixpoint split (sep : ascii) (s : string) : list string :=
  match s with
  | EmptyString => [EmptyString]
  | String c s' =>
      if Ascii.eqb c sep then EmptyString :: split sep s'
      else match split sep s' with
           | seg :: rest => String c seg :: rest
           | [] => [String c EmptyString]
           end
  end.

(** [arr.pop()]: the last element, [undefined] on the empty array. *)
Definition pop (l : list string) : option string :=
  match rev l with
  | [] => None
  | x :: _ => Some x
  end.

(** [arr.includes(x)] on strings. *)
Definition includes (l : list string) (x : string) : bool :=
  existsb (String.eqb x) l.

(** Template-literal rendering of a non-negative integer. *)
Definition string_of_N (n : N) : string :=
  NilZero.string_of_uint (N.to_uint n).

(** [(bytes / 1024 / 1024).toFixed(1)]: the two divisions by a power of two
    are exact, and [toFixed(1)] picks the integer [n] closest to ten times
    the value (the larger one on a tie) and prints it with a point before
    its last digit. *)
Definition tenths_of_MB (bytes : N) : N :=
  ((20 * bytes + 1048576) / 2097152)%N.

Definition toFixed1_MB (bytes : N) : string :=
  let n := tenths_of_MB bytes in
  string_of_N (n / 10) ++ "." ++ string_of_N (n mod 10).

(** [s.replace(/\.(alt1|alt2|...)$/i, '')]: the leftmost position from
    which a dot followed by one of the alternatives runs to the end of the
    string is cut off; without such a position the string is unchanged. *)
Definition dot_alt_to_end (alts : list string) (s : string) : bool :=
  match s with
  | String c rest => andb (Ascii.eqb c ".") (includes alts (toLowerCase rest))
  | EmptyString => false
  end.

Fixpoint replace_dot_alt_at_end (alts : list string) (s : string) : string :=
  match s with
  | EmptyString => EmptyString
  | String c s' =>
      if dot_alt_to_end alts s then EmptyString
      else String c (replace_dot_alt_at_end alts s')
  end.

(** [x || y] on strings: the empty string is falsy. *)
Definition or_else (x y : string) : string :=
  match x with EmptyString => y | _ => x end.

(** *** Arithmetic of doubles

    A finite double is the rational it denotes.  The result of an
    arithmetic operation is the exact result rounded to the nearest double,
    to the one with an even significand on a tie (IEEE-754 binary64,
    round-to-nearest-even): a significand of 53 bits, and below [2^-1022]
    the fixed spacing [2^-1074] of the subnormal numbers. *)

(** The nearest integer, the even one on a tie. *)
Definition round_half_even (q : Q) : Z :=
  let f := Qfloor q in
  match Qcompare (q - inject_Z f) (1 # 2) with
  | Lt => f
  | Gt => (f + 1)%Z
  | Eq => if Z.even f then f else (f + 1)%Z
  end.

(** [2^1074]: the number of smallest subnormal steps in one unit. *)
Definition TINY : Z := Z.shiftl 1 1074.

(** Rounding of a non-negative rational: in units [u] of [2^-1074], the
    doubles around [u] are the multiples of [2^k], where [k] leaves 53
    bits to the significand. *)
Definition round_nonneg (x : Q) : Q :=
  let u := x * inject_Z TINY in
  let k := Z.max (Z.log2 (Qfloor u) - 52) 0 in
  inject_Z (round_half_even (u / inject_Z (2 ^ k)) * 2 ^ k) / inject_Z TINY.

(** Rounding is symmetric in the sign. *)
Definition round_double (x : Q) : Q :=
  match Qcompare x 0 with
  | Lt => - round_nonneg (- x)
  | _ => round_nonneg x
  end.

(** The double that the literal [0.8] denotes: [0x1.999999999999ap-1]. *)
Definition double_0_8 : Q := 3602879701896397 # 4503599627370496.

(** [x * y] on doubles. *)
Definition mul_double (x y : Q) : Q := round_double (x * y).

End Js.

(** ** Types of [@/types/pdf] *)

Definition Blob := string.

Record File := mkFile {
  name : string;
  size : N;
  type : string;
  content : Blob
}.

Record ProcessInput := mkInput { files : list File }.

Inductive PDFErrorCode :=
| INVALID_OPTIONS
| FILE_TYPE_INVALID
| PROCESSING_CANCELLED
| PROCESSING_FAILED.

Record PDFError := mkError {
  code : PDFErrorCode;
  message : string;
  details : option string
}.

Inductive ProcessOutput :=
| Success (result : Blob) (filename : string) (metadata : list (string * string))
| Failure (error : PDFError).

(** Modelled from the spec: [createErrorOutput] and [createSuccessOutput] of
    [BasePDFProcessor] ([../processor], not in the source tree) build the two
    variants of the output record: a failure carries the error kind, the
    human message and the optional diagnostic detail; a success carries the
    payload, the file name and the metadata map. *)
Definition createErrorOutput (c : PDFErrorCode) (msg : string) (d : option string)
  : ProcessOutput :=
  Failure (mkError c msg d).

Definition createSuccessOutput (b : Blob) (fname : string) (meta : list (string * string))
  : ProcessOutput :=
  Success b fname meta.

(** ** Constants and per-family tables *)

Definition MAX_FILE_SIZE : N := 50 * 1024 * 1024.
Definition CONVERT_TIMEOUT_MS : N := 5 * 60 * 1000.
Definition TICK_MS : N := 800.

(** The presentation processor ([PPTXToPDFProcessor]) and the document
    processor ([WordToPDFProcessor]). *)
Inductive Family := Presentation | Document.

Definition validExts (fam : Family) : list string :=
  match fam with
  | Presentation => ["pptx"; "ppt"; "odp"]
  | Document => ["docx"; "doc"; "odt"; "rtf"]
  end.

(** The alternatives of [/\.(pptx?|odp)$/i] and [/\.(docx?|odt|rtf)$/i],
    with the optional [x] expanded. *)
Definition ext_pattern (fam : Family) : list string :=
  match fam with
  | Presentation => ["pptx"; "ppt"; "odp"]
  | Document => ["docx"; "doc"; "odt"; "rtf"]
  end.

Definition msg_one_file (fam : Family) : string :=
  match fam with
  | Presentation => "Please provide exactly one PowerPoint presentation."
  | Document => "Please provide exactly one Word document."
  end.

Definition msg_invalid_type (fam : Family) : string :=
  match fam with
  | Presentation => "Invalid file type. Please upload .pptx, .ppt, or .odp."
  | Document => "Invalid file type. Please upload .docx, .doc, .odt, or .rtf."
  end.

Definition msg_converting (fam : Family) : string :=
  match fam with
  | Presentation => "Converting PowerPoint to PDF..."
  | Document => "Converting Word document to PDF..."
  end.

Definition msg_failed (fam : Family) : string :=
  match fam with
  | Presentation => "Failed to convert PowerPoint to PDF."
  | Document => "Failed to convert Word document to PDF."
  end.

Definition msg_loading : string :=
  "Loading conversion engine (first time may take 1-2 minutes)...".

Definition msg_too_large (f : File) : string :=
  "File is too large (" ++ Js.toFixed1_MB (size f) ++ " MB). Maximum supported size is "
    ++ Js.string_of_N (MAX_FILE_SIZE / 1024 / 1024) ++ " MB.".

Definition msg_timeout : string :=
  "Conversion timed out after " ++ Js.string_of_N (CONVERT_TIMEOUT_MS / 60000)
    ++ " minutes. The file may be too complex.".

(** [file.name.split('.').pop()?.toLowerCase() || ''] *)
Definition ext_of (f : File) : string :=
  Js.or_else
    (match Js.pop (Js.split "." (name f)) with
     | Some seg => Js.toLowerCase seg
     | None => EmptyString
     end)
    EmptyString.

(** [file.name.replace(/\.(...)$/i, '')] *)
Definition baseName (fam : Family) (f : File) : string :=
  Js.replace_dot_alt_at_end (ext_pattern fam) (name f).

(** ** Values thrown and promises *)

(** What a [catch] clause receives: an [Error] object with its message, or
    some other value. *)
Inductive Thrown :=
| JsError (msg : string)
| NonError.

(** [error instanceof Error ? error.message : 'Unknown error'] *)
Definition error_message (e : Thrown) : string :=
  match e with
  | JsError m => m
  | NonError => "Unknown error"
  end.

Inductive Promise :=
| Pending
| Fulfilled
| Rejected (reason : Thrown).

(** The object returned by [getLibreOfficeConverter()], by identity. *)
Definition Handle := nat.

(** ** State *)

(** Module-level variables of one processor module
    ([let converterPromise], [let converterInstance]). *)
Record ModuleState := mkModule {
  converterPromise : option Promise;
  converterInstance : option Handle
}.

(** Modelled from the spec: the conversion engine of [@/lib/libreoffice]
    (not in the source tree) is an opaque collaborator exposing
    [initialize(progressCallback)], [isReady()] and [convertToPdf(file)].
    Its state here: which handles answer [isReady()] with true, which
    [initialize] calls are in flight, and how often [initialize] and
    [convertToPdf] were invoked. *)
Record Engine := mkEngine {
  ready : list Handle;
  initializing : list Handle;
  initialize_calls : nat;
  convertToPdf_calls : list (Handle * string)
}.

(** Fields of a processor instance.  [onProgress] records whether the caller
    supplied a callback; [conversionProgressTimer] holds the message the
    interval callback closes over while the interval is live. *)
Record Processor := mkProcessor {
  progress : Q;
  cancelled : bool;
  onProgress : bool;
  conversionProgressTimer : option string
}.

(** Everything one call can read or write: the processor instance, the two
    modules' variables, the engine, and the calls the caller-supplied
    progress callback has received so far. *)
Record State := mkState {
  self : Processor;
  presentation : ModuleState;
  document : ModuleState;
  engine : Engine;
  delivered : list (Q * string)
}.

Definition module_of (fam : Family) (st : State) : ModuleState :=
  match fam with
  | Presentation => presentation st
  | Document => document st
  end.

Definition set_module (fam : Family) (m : ModuleState) (st : State) : State :=
  match fam with
  | Presentation => mkState (self st) m (document st) (engine st) (delivered st)
  | Document => mkState (self st) (presentation st) m (engine st) (delivered st)
  end.

Definition set_self (p : Processor) (st : State) : State :=
  mkState p (presentation st) (document st) (engine st) (delivered st).

Definition set_engine (e : Engine) (st : State) : State :=
  mkState (self st) (presentation st) (document st) e (delivered st).

Definition set_delivered (l : list (Q * string)) (st : State) : State :=
  mkState (self st) (presentation st) (document st) (engine st) l.

(** ** A state monad with JS exceptions

    A thrown value leaves the state as it was when thrown. *)

Definition M (A : Type) : Type := State -> (Thrown + A) * State.

Definition ret {A : Type} (a : A) : M A := fun st => (inr a, st).

Definition bind {A B : Type} (m : M A) (k : A -> M B) : M B :=
  fun st =>
    match m st with
    | (inr a, st') => k a st'
    | (inl e, st') => (inl e, st')
    end.

Definition throw {A : Type} (e : Thrown) : M A := fun st => (inl e, st).

Definition try_catch {A : Type} (body : M A) (handler : Thrown -> M A) : M A :=
  fun st =>
    match body st with
    | (inl e, st') => handler e st'
    | (inr a, st') => (inr a, st')
    end.

Definition gets {A : Type} (f : State -> A) : M A := fun st => (inr (f st), st).

Definition modify (f : State -> State) : M unit := fun st => (inr tt, f st).

Declare Scope js_scope.
Delimit Scope js_scope with js.
Notation "x <- m ;; k" := (bind m (fun x => k))
  (at level 61, m at next level, right associativity) : js_scope.
Notation "m ;; k" := (bind m (fun _ => k))
  (at level 61, right associativity) : js_scope.
Open Scope js_scope.

(** A statement run once per element of a list, in order. *)
Fixpoint for_each {A : Type} (f : A -> M unit) (l : list A) : M unit :=
  match l with
  | [] => ret tt
  | x :: l' => f x ;; for_each f l'
  end.

(** A statement run [n] times. *)
Fixpoint repeat_M (n : nat) (m : M unit) : M unit :=
  match n with
  | O => ret tt
  | S n' => m ;; repeat_M n' m
  end.

(** ** The environment of one call *)

(** How [converter.convertToPdf(file)] settles, in milliseconds after it
    was invoked. *)
Inductive ConvOutcome :=
| ConvResolves (at_ms : N) (pdf : Blob)
| ConvRejects (at_ms : N) (e : Thrown)
| ConvNever.

(** What happens while [process] is suspended.  [import_fails]: the dynamic
    [import('@/lib/libreoffice')] rejects.  [engine_handle]: the object
    [getLibreOfficeConverter()] returns.  [init_reports]: the progress
    objects the engine passes to the callback of [initialize], in order.
    [initialize_fails]: [initialize] rejects.  [cancel_while_loading],
    [cancel_while_converting]: [cancel()] is called on the processor while
    it awaits the provider, respectively the race. *)
Record Scenario := mkScenario {
  import_fails : option Thrown;
  engine_handle : Handle;
  init_reports : list (Q * string);
  initialize_fails : option Thrown;
  cancel_while_loading : bool;
  convert_outcome : ConvOutcome;
  cancel_while_converting : bool
}.

(** ** [BasePDFProcessor] *)

(** Modelled from the spec: [updateProgress] of [BasePDFProcessor]
    ([../processor], not in the source tree).  The progress state is a value
    in [0,100] plus a status message, consumed through the caller-supplied
    callback: the value is clamped into [0,100], stored, and handed to the
    callback when there is one. *)
Definition updateProgress (q : Q) (msg : string) : M unit :=
  modify (fun st =>
    let v := Qmin 100 (Qmax 0 q) in
    let p := self st in
    let st' := set_self (mkProcessor v (cancelled p) (onProgress p)
                                     (conversionProgressTimer p)) st in
    if onProgress p then set_delivered (delivered st ++ [(v, msg)]) st' else st').

(** Modelled from the spec: [reset] of [BasePDFProcessor] resets the progress
    state and the cancellation flag. *)
Definition super_reset : M unit :=
  modify (fun st =>
    let p := self st in
    set_self (mkProcessor 0 false (onProgress p) (conversionProgressTimer p)) st).

(** Modelled from the spec: [checkCancelled] of [BasePDFProcessor] samples
    the cancellation flag. *)
Definition checkCancelled : M bool := gets (fun st => cancelled (self st)).

(** Modelled from the spec: [cancel] of [BasePDFProcessor] sets the
    cancellation flag; it is the environment that calls it. *)
Definition cancel : M unit :=
  modify (fun st =>
    let p := self st in
    set_self (mkProcessor (progress p) true (onProgress p)
                          (conversionProgressTimer p)) st).

(** ** The processor class *)

Definition set_timer (t : option string) : M unit :=
  modify (fun st =>
    let p := self st in
    set_self (mkProcessor (progress p) (cancelled p) (onProgress p) t) st).

Definition stopConversionProgress : M unit :=
  t <- gets (fun st => conversionProgressTimer (self st)) ;;
  match t with
  | Some _ => set_timer None
  | None => ret tt
  end.

Definition startConversionProgress (msg : string) : M unit :=
  stopConversionProgress ;;
  set_timer (Some msg).

(** One firing of the 800 ms interval: a cleared interval does not fire. *)
Definition tick : M unit :=
  t <- gets (fun st => conversionProgressTimer (self st)) ;;
  match t with
  | None => ret tt
  | Some msg =>
      p <- gets (fun st => progress (self st)) ;;
      if Qle_bool 98 p then ret tt
      else updateProgress (p + 1) msg
  end.

Definition reset : M unit :=
  stopConversionProgress ;;
  super_reset.

(** ** The converter provider *)

Definition set_converterPromise (fam : Family) (p : Promise) : M unit :=
  modify (fun st =>
    set_module fam (mkModule (Some p) (converterInstance (module_of fam st))) st).

Definition set_converterInstance (fam : Family) (h : Handle) : M unit :=
  modify (fun st =>
    set_module fam (mkModule (converterPromise (module_of fam st)) (Some h)) st).

(** Modelled from the spec: [isReady()] of the engine handle, the
    synchronous readiness probe. *)
Definition isReady (e : Engine) (h : Handle) : bool :=
  existsb (Nat.eqb h) (ready e).

(** [converterInstance?.isReady()]: the instance when it exists and is ready. *)
Definition instance_if_ready (fam : Family) : M (option Handle) :=
  gets (fun st =>
    match converterInstance (module_of fam st) with
    | Some h => if isReady (engine st) h then Some h else None
    | None => None
    end).

Fixpoint remove_one (h : Handle) (l : list Handle) : list Handle :=
  match l with
  | [] => []
  | x :: l' => if Nat.eqb h x then l' else x :: remove_one h l'
  end.

(** Modelled from the spec: the engine side of
    [converterInstance.initialize(cb)].  The call starts, and later settles;
    [initialize] resolves when the engine is ready, so a call that resolves
    leaves the handle ready. *)
Definition engine_initialize_starts (h : Handle) : M unit :=
  modify (fun st =>
    let e := engine st in
    set_engine (mkEngine (ready e) (h :: initializing e)
                         (S (initialize_calls e)) (convertToPdf_calls e)) st).

Definition engine_initialize_settles (h : Handle) (ok : bool) : M unit :=
  modify (fun st =>
    let e := engine st in
    set_engine (mkEngine (if ok then h :: ready e else ready e)
                         (remove_one h (initializing e))
                         (initialize_calls e) (convertToPdf_calls e)) st).

(** The async closure of [getConverter], first half: the dynamic import,
    [converterInstance = getLibreOfficeConverter()], and the call of
    [initialize].  A failed import rejects [converterPromise]. *)
Definition closure_import (fam : Family) (sc : Scenario) : M (option Handle) :=
  match import_fails sc with
  | Some e => set_converterPromise fam (Rejected e) ;; ret None
  | None =>
      let h := engine_handle sc in
      set_converterInstance fam h ;;
      engine_initialize_starts h ;;
      ret (Some h)
  end.

(** Second half: each engine report goes through
    [onProgress?.(progress.percent, progress.message)], then [initialize]
    settles and with it [converterPromise]. *)
Definition closure_initialize (fam : Family) (cb : option (Q -> string -> M unit))
    (sc : Scenario) (h : Handle) : M unit :=
  for_each (fun r : Q * string =>
              match cb with
              | Some f => f (fst r) (snd r)
              | None => ret tt
              end) (init_reports sc) ;;
  match initialize_fails sc with
  | Some e =>
      engine_initialize_settles h false ;;
      set_converterPromise fam (Rejected e)
  | None =>
      engine_initialize_settles h true ;;
      set_converterPromise fam Fulfilled
  end.

Definition closure (fam : Family) (cb : option (Q -> string -> M unit))
    (sc : Scenario) : M unit :=
  r <- closure_import fam sc ;;
  match r with
  | Some h => closure_initialize fam cb sc h
  | None => ret tt
  end.

(** A closure started by an earlier caller runs on to its settlement; its
    reports go to that caller's callback, not to this one's. *)
Definition in_flight_settles (fam : Family) (sc : Scenario) : M unit :=
  m <- gets (module_of fam) ;;
  match converterPromise m with
  | Some Pending =>
      match converterInstance m with
      | Some h => closure_initialize fam None sc h
      | None => closure fam None sc
      end
  | _ => ret tt
  end.

(** Where the synchronous part of [getConverter] ends. *)
Inductive Entry :=
| ReturnedReady (h : Handle)
| AwaitsInFlight
| AwaitsOwn.

(** [getConverter] up to its first suspension. *)
Definition getConverter_sync (fam : Family) : M Entry :=
  r <- instance_if_ready fam ;;
  match r with
  | Some h => ret (ReturnedReady h)
  | None =>
      p <- gets (fun st => converterPromise (module_of fam st)) ;;
      match p with
      | Some _ => ret AwaitsInFlight
      | None => set_converterPromise fam Pending ;; ret AwaitsOwn
      end
  end.

(** [await converterPromise; return converterInstance;] once the promise has
    settled: a rejected promise throws its reason into the caller. *)
Definition getConverter_resume (fam : Family) : M (option Handle) :=
  p <- gets (fun st => converterPromise (module_of fam st)) ;;
  match p with
  | Some (Rejected e) => throw e
  | _ => gets (fun st => converterInstance (module_of fam st))
  end.

Definition getConverter (fam : Family) (cb : option (Q -> string -> M unit))
    (sc : Scenario) : M (option Handle) :=
  e <- getConverter_sync fam ;;
  match e with
  | ReturnedReady h => ret (Some h)
  | AwaitsInFlight => in_flight_settles fam sc ;; getConverter_resume fam
  | AwaitsOwn => closure fam cb sc ;; getConverter_resume fam
  end.

(** ** [process] *)

(** [Promise.race([converter.convertToPdf(file), timeout])]: the time at
    which the race settles and how.  A conversion that settles no later than
    the timer wins the race. *)
Definition race (o : ConvOutcome) : N * (Thrown + Blob) :=
  match o with
  | ConvResolves t pdf =>
      if (t <=? CONVERT_TIMEOUT_MS)%N then (t, inr pdf)
      else (CONVERT_TIMEOUT_MS, inl (JsError msg_timeout))
  | ConvRejects t e =>
      if (t <=? CONVERT_TIMEOUT_MS)%N then (t, inl e)
      else (CONVERT_TIMEOUT_MS, inl (JsError msg_timeout))
  | ConvNever => (CONVERT_TIMEOUT_MS, inl (JsError msg_timeout))
  end.

(** The call [converter.convertToPdf(file)], recorded on the engine; on a
    [null] converter the member access throws a [TypeError]. *)
Definition convertToPdf_starts (converter : option Handle) (file : File) : M unit :=
  match converter with
  | None => throw (JsError "Cannot read properties of null (reading 'convertToPdf')")
  | Some h =>
      modify (fun st =>
        let e := engine st in
        set_engine (mkEngine (ready e) (initializing e) (initialize_calls e)
                             (convertToPdf_calls e ++ [(h, name file)])) st)
  end.

(** [await Promise.race([...])]: the conversion is invoked, the interval
    fires at every multiple of 800 ms that lies before the moment the race
    settles, [cancel()] may be called meanwhile, and the race's outcome is
    returned or thrown.  A firing that is due at the very moment the race
    settles does not happen: the interval is re-armed at each firing, which
    puts its next firing behind the settlement, and the continuation of
    [process] clears the interval as soon as the race has settled. *)
Definition await_race (converter : option Handle) (file : File) (sc : Scenario)
  : M Blob :=
  convertToPdf_starts converter file ;;
  let settled := race (convert_outcome sc) in
  repeat_M (N.to_nat (N.pred (fst settled) / TICK_MS)) tick ;;
  (if cancel_while_converting sc then cancel else ret tt) ;;
  match snd settled with
  | inl e => throw e
  | inr pdf => ret pdf
  end.

(** The closure [process] hands to [getConverter]:
    [(percent, message) => this.updateProgress(Math.min(percent * 0.8, 80), message)].
    The product is a product of doubles. *)
Definition relay (percent : Q) (message : string) : M unit :=
  updateProgress (Qmin (Js.mul_double percent Js.double_0_8) 80) message.

(** [await getConverter(relay)]; [cancel()] may be called meanwhile. *)
Definition await_getConverter (fam : Family) (sc : Scenario) : M (option Handle) :=
  converter <- getConverter fam (Some relay) sc ;;
  (if cancel_while_loading sc then cancel else ret tt) ;;
  ret converter.

(** The first two statements of the [try] block: the 5% report and the
    awaited provider call. *)
Definition loading_phase (fam : Family) (sc : Scenario) : M (option Handle) :=
  updateProgress 5 msg_loading ;;
  await_getConverter fam sc.

Definition set_onProgress (cb : bool) : M unit :=
  modify (fun st =>
    let p := self st in
    set_self (mkProcessor (progress p) (cancelled p) cb
                          (conversionProgressTimer p)) st).

(** The [try] block of [process]. *)
Definition process_try (fam : Family) (sc : Scenario) (file : File) : M ProcessOutput :=
  converter <- loading_phase fam sc ;;
  c <- checkCancelled ;;
  if c then
    ret (createErrorOutput PROCESSING_CANCELLED "Processing was cancelled." None)
  else
    updateProgress 85 (msg_converting fam) ;;
    startConversionProgress (msg_converting fam) ;;
    pdfBlob <- await_race converter file sc ;;
    stopConversionProgress ;;
    c' <- checkCancelled ;;
    if c' then
      ret (createErrorOutput PROCESSING_CANCELLED "Processing was cancelled." None)
    else
      updateProgress 100 "Conversion complete!" ;;
      ret (createSuccessOutput pdfBlob (baseName fam file ++ ".pdf")
                               [("format", "pdf")]).

(** The [catch] block of [process]. *)
Definition process_catch (fam : Family) (error : Thrown) : M ProcessOutput :=
  stopConversionProgress ;;
  ret (createErrorOutput PROCESSING_FAILED (msg_failed fam)
                         (Some (error_message error))).

(** [process(input, onProgress)]; [cb] tells whether the caller supplied a
    progress callback.  [files.length !== 1] is the last branch of the
    match, [files[0]] the head of a one-element list. *)
Definition process (fam : Family) (sc : Scenario) (input : ProcessInput) (cb : bool)
  : M ProcessOutput :=
  reset ;;
  set_onProgress cb ;;
  match files input with
  | [file] =>
      if negb (Js.includes (validExts fam) (ext_of file)) then
        ret (createErrorOutput FILE_TYPE_INVALID (msg_invalid_type fam)
               (Some ("Received: " ++ Js.or_else (type file) (name file))))
      else if (MAX_FILE_SIZE <? size file)%N then
        ret (createErrorOutput INVALID_OPTIONS (msg_too_large file)
               (Some ("File size: " ++ Js.string_of_N (size file) ++ " bytes, limit: "
                        ++ Js.string_of_N MAX_FILE_SIZE ++ " bytes")))
      else
        try_catch (process_try fam sc file) (process_catch fam)
  | fs =>
      ret (createErrorOutput INVALID_OPTIONS (msg_one_file fam)
             (Some ("Received " ++ Js.string_of_N (N.of_nat (length fs)) ++ " file(s).")))
  end.

(** The calls the progress callback received during a run from [st]. *)
Definition reported {A : Type} (st : State) (r : (Thrown + A) * State)
  : list (Q * string) :=
  skipn (length (delivered st)) (delivered (snd r)).

(** ** The provider as a transition system

    Between suspensions many callers and closures interleave.  An action is
    one atomic piece: a caller runs the synchronous part of [getConverter]
    of a module, a pending closure of a module passes its import, or a
    pending closure's [initialize] settles. *)
Inductive Action :=
| Calls (fam : Family)
| Imports (fam : Family) (sc : Scenario)
| Settles (fam : Family) (sc : Scenario).

Definition exec (a : Action) (st : State) : State :=
  match a with
  | Calls fam => snd (getConverter_sync fam st)
  | Imports fam sc =>
      match converterPromise (module_of fam st), converterInstance (module_of fam st) with
      | Some Pending, None => snd (closure_import fam sc st)
      | _, _ => st
      end
  | Settles fam sc =>
      match converterPromise (module_of fam st), converterInstance (module_of fam st) with
      | Some Pending, Some h => snd (closure_initialize fam None sc h st)
      | _, _ => st
      end
  end.

Definition run_actions (l : list Action) (st : State) : State :=
  fold_left (fun s a => exec a s) l st.

(** A freshly loaded page: both modules' variables are [null], the engine
    has not been touched. *)
Definition fresh_processor : Processor := mkProcessor 0 false false None.

Definition fresh : State :=
  mkState fresh_processor (mkModule None None) (mkModule None None)
          (mkEngine [] [] 0 []) [].

(** Scenarios used in examples. *)
Definition engine_ok (reports : list (Q * string)) (ms : N) (pdf : Blob) : Scenario :=
  mkScenario None 1%nat reports None false (ConvResolves ms pdf) false.

Definition one_file (f : File) : ProcessInput := mkInput [f].

(** ** Auxiliary predicates used in statements *)

(** [needle] occurs in [hay]. *)
Definition contains (needle hay : string) : Prop :=
  exists pre post, hay = pre ++ needle ++ post.

(** The same, decided by a scan for a position at which [needle] is a
    prefix. *)
Fixpoint containsb (needle hay : string) : bool :=
  orb (String.prefix needle hay)
      (match hay with
       | EmptyString => false
       | String _ hay' => containsb needle hay'
       end).

Fixpoint has_dot (s : string) : bool :=
  match s with
  | EmptyString => false
  | String c s' => orb (Ascii.eqb c ".") (has_dot s')
  end.

(** The value the callback receives for an engine report of [percent]. *)
Definition relay_value (percent : Q) : Q :=
  Qmin 100 (Qmax 0 (Qmin (Js.mul_double percent Js.double_0_8) 80)).

Definition relay_report (r : Q * string) : Q * string :=
  (relay_value (fst r), snd r).

(** The state after the relay closure has run on each report of [l]. *)
Definition relay_all (l : list (Q * string)) (st : State) : State :=
  let p := self st in
  mkState (mkProcessor (last (map relay_value (map fst l)) (progress p))
                       (cancelled p) (onProgress p) (conversionProgressTimer p))
          (presentation st) (document st) (engine st)
          (delivered st ++ (if onProgress p then map relay_report l else [])).

(** The engine reports that reach this caller's closure: those of an
    initialization this very call starts, once the import has succeeded. *)
Definition own_reports (fam : Family) (sc : Scenario) (st : State) : list (Q * string) :=
  match fst (getConverter_sync fam st), import_fails sc with
  | inr AwaitsOwn, None => init_reports sc
  | _, _ => []
  end.

(** What the provider answers, and the state it leaves, when nothing
    listens to the engine's reports. *)
Definition provider_result (fam : Family) (sc : Scenario) (st : State)
  : Thrown + option Handle :=
  fst (getConverter fam None sc st).

Definition provider_state (fam : Family) (sc : Scenario) (st : State) : State :=
  snd (getConverter fam None sc st).

(** The state after [n] firings of the interval. *)
Definition ticks (n : nat) (st : State) : State :=
  snd (repeat_M n tick st).

(** [q <= v1 <= v2 <= ...] *)
Fixpoint chain (q : Q) (vs : list Q) : Prop :=
  match vs with
  | [] => True
  | v :: vs' => q <= v /\ chain v vs'
  end.

Definition nondecreasing (vs : list Q) : Prop :=
  match vs with
  | [] => True
  | v :: vs' => chain v vs'
  end.

(** The conversion settles no later than the timer. *)
Definition settles_in_time (o : ConvOutcome) : bool :=
  match o with
  | ConvResolves t _ => (t <=? CONVERT_TIMEOUT_MS)%N
  | ConvRejects t _ => (t <=? CONVERT_TIMEOUT_MS)%N
  | ConvNever => false
  end.

(** The two fixed failure outputs of the [try] and [catch] blocks. *)
Definition cancelled_output : ProcessOutput :=
  createErrorOutput PROCESSING_CANCELLED "Processing was cancelled." None.

Definition failed_output (fam : Family) (e : Thrown) : ProcessOutput :=
  createErrorOutput PROCESSING_FAILED (msg_failed fam) (Some (error_message e)).

(** The state in which the awaited provider call leaves a call of [process]
    that entered with callback flag [cb]: 5% reported, the engine's reports
    relayed, the provider's variables as the provider left them, and the
    cancellation flag set if [cancel()] came meanwhile. *)
Definition loaded (fam : Family) (sc : Scenario) (cb : bool) (st : State) : State :=
  let w := provider_state fam sc st in
  let l := own_reports fam sc st in
  mkState (mkProcessor (last (map relay_value (map fst l)) 5)
                       (match provider_result fam sc st with
                        | inr _ => cancel_while_loading sc
                        | inl _ => false
                        end) cb None)
          (presentation w) (document w) (engine w)
          (delivered st ++ (if cb then (5, msg_loading) :: map relay_report l else [])).

(** The handle whose [initialize] call a module is awaiting, if any. *)
Definition in_flight (m : ModuleState) : list Handle :=
  match converterPromise m, converterInstance m with
  | Some Pending, Some h => [h]
  | _, _ => []
  end.

(** How often a module has called [initialize]: once it holds a handle. *)
Definition initialized (m : ModuleState) : nat :=
  match converterInstance m with
  | Some _ => 1
  | None => 0
  end.

(** What every interleaving of callers and closures preserves: the
    [initialize] calls in flight are those of the modules with a pending
    promise and a handle; every handle a module holds stands for one call
    of [initialize]; a module without a promise has no handle. *)
Definition provider_invariant (st : State) : Prop :=
  Permutation (initializing (engine st))
              (in_flight (presentation st) ++ in_flight (document st))
  /\ initialize_calls (engine st)
     = (initialized (presentation st) + initialized (document st))%nat
  /\ (forall fam, converterPromise (module_of fam st) = None ->
                  converterInstance (module_of fam st) = None).

(** The processor state right after [this.reset(); this.onProgress = cb]. *)
Definition entered (cb : bool) (st : State) : State :=
  set_self (mkProcessor 0 false cb None) st.

(** ** The factory and convenience functions *)

(** [createPPTXToPDFProcessor()], [createWordToPDFProcessor()]: a new
    processor object, with no interval and, as far as [BasePDFProcessor]
    sets them, initial fields. *)
Definition createPPTXToPDFProcessor : Processor := mkProcessor 0 false false None.
Definition createWordToPDFProcessor : Processor := mkProcessor 0 false false None.

(** [pptxToPDF(file, options, onProgress)] and [wordToPDF(...)]: a new
    processor runs [process({ files: [file], options: options || {} },
    onProgress)]. *)
Definition pptxToPDF (sc : Scenario) (file : File) (cb : bool) : M ProcessOutput :=
  modify (set_self createPPTXToPDFProcessor) ;;
  process Presentation sc (mkInput [file]) cb.

Definition wordToPDF (sc : Scenario) (file : File) (cb : bool) : M ProcessOutput :=
  modify (set_self createWordToPDFProcessor) ;;
  process Document sc (mkInput [file]) cb.

(** The other processor module. *)
Definition other (fam : Family) : Family :=
  match fam with Presentation => Document | Document => Presentation end.

(** The error code of a run's output, if it is a failure. *)
Definition error_code_of (r : (Thrown + ProcessOutput) * State) : option PDFErrorCode :=
  match fst r with
  | inr (Failure e) => Some (code e)
  | _ => None
  end.

(** The reports of [m] firings of the interval that start above a
    whole-number progress [a]: [a + 1], ..., [a + m]. *)
Definition tick_reports (a : nat) (m : nat) (msg : string) : list (Q * string) :=
  map (fun k => (inject_Z (Z.of_nat (a + k)), msg)) (seq 1 m).

(** The number of firings that still raise the progress while [process]
    awaits the race: one per multiple of 800 ms before the moment the race
    settles, at most 13 above 85. *)
Definition ticks_during (sc : Scenario) : nat :=
  Nat.min (N.to_nat (N.pred (fst (race (convert_outcome sc))) / TICK_MS)) 13.

(** * Properties *)

(** ** Concrete runs *)

Example ext_of_upper : ext_of (mkFile "Report.DOCX" 10 "" "") = "docx".
Proof. reflexivity. Qed.

Example ext_of_two_dots : ext_of (mkFile "slides.v2.pptx" 10 "" "") = "pptx".
Proof. reflexivity. Qed.

Example msg_too_large_60MB :
  msg_too_large (mkFile "a.pptx" 62914560 "" "")
  = "File is too large (60.0 MB). Maximum supported size is 50 MB.".
Proof. reflexivity. Qed.

Example msg_timeout_text :
  msg_timeout = "Conversion timed out after 5 minutes. The file may be too complex.".
Proof. reflexivity. Qed.

(** ** The monad *)

Lemma bind_ret_l {A B : Type} (a : A) (k : A -> M B) (st : State) :
  bind (ret a) k st = k a st.
Proof. reflexivity. Qed.

Lemma bind_assoc {A B C : Type} (m : M A) (k : A -> M B) (k' : B -> M C) (st : State) :
  bind (bind m k) k' st = bind m (fun a => bind (k a) k') st.
Proof.
  unfold bind. destruct (m st) as [[e | a] st']; reflexivity.
Qed.

(** ** Validation *)

Lemma reset_then_set_onProgress {A : Type} (cb : bool) (k : M A) (st : State) :
  bind reset (fun _ => bind (set_onProgress cb) (fun _ => k)) st = k (entered cb st).
Proof.
  destruct st as [[q c o [t |]] pm dm e d]; reflexivity.
Qed.

Lemma process_enters (fam : Family) (sc : Scenario) (input : ProcessInput)
    (cb : bool) (st : State) :
  process fam sc input cb st
  = match files input with
    | [file] =>
        if negb (Js.includes (validExts fam) (ext_of file)) then
          (inr (createErrorOutput FILE_TYPE_INVALID (msg_invalid_type fam)
                  (Some ("Received: " ++ Js.or_else (type file) (name file)))),
           entered cb st)
        else if (MAX_FILE_SIZE <? size file)%N then
          (inr (createErrorOutput INVALID_OPTIONS (msg_too_large file)
                  (Some ("File size: " ++ Js.string_of_N (size file) ++ " bytes, limit: "
                           ++ Js.string_of_N MAX_FILE_SIZE ++ " bytes"))),
           entered cb st)
        else
          try_catch (process_try fam sc file) (process_catch fam) (entered cb st)
    | fs =>
        (inr (createErrorOutput INVALID_OPTIONS (msg_one_file fam)
                (Some ("Received " ++ Js.string_of_N (N.of_nat (length fs)) ++ " file(s)."))),
         entered cb st)
    end.
Proof.
  unfold process.
  rewrite (reset_then_set_onProgress cb _ st).
  destruct (files input) as [| f [| f' fs]]; try reflexivity.
  destruct (negb (Js.includes (validExts fam) (ext_of f))); try reflexivity.
  destruct (MAX_FILE_SIZE <? size f)%N; reflexivity.
Qed.

(** C4: a single file whose extension is outside the family whitelist is
    answered with [FILE_TYPE_INVALID], whatever its size; the whitelists are
    pptx/ppt/odp and docx/doc/odt/rtf, and the engine is not touched. *)
Theorem C4_extension_outside_whitelist_rejected :
  forall (fam : Family) (sc : Scenario) (file : File) (cb : bool) (st : State),
    Js.includes (validExts fam) (ext_of file) = false ->
    process fam sc (one_file file) cb st
    = (inr (Failure (mkError FILE_TYPE_INVALID (msg_invalid_type fam)
                       (Some ("Received: " ++ Js.or_else (type file) (name file))))),
       entered cb st)
    /\ validExts Presentation = ["pptx"; "ppt"; "odp"]
    /\ validExts Document = ["docx"; "doc"; "odt"; "rtf"].
Proof.
  intros fam sc file cb st Hext.
  rewrite process_enters. cbn [one_file files]. rewrite Hext. cbn [negb].
  repeat split.
Qed.

Lemma C4_witness_oversized_txt :
  let f := mkFile "notes.txt" 62914560 "text/plain" "" in
  (MAX_FILE_SIZE < size f)%N
  /\ fst (process Document (engine_ok [] 1000 "%PDF") (one_file f) true fresh)
     = inr (Failure (mkError FILE_TYPE_INVALID (msg_invalid_type Document)
                       (Some "Received: text/plain"))).
Proof.
  split; [reflexivity |].
  rewrite (proj1 (C4_extension_outside_whitelist_rejected Document
                    (engine_ok [] 1000 "%PDF")
                    (mkFile "notes.txt" 62914560 "text/plain" "") true fresh
                    eq_refl)).
  reflexivity.
Defined.

(** C3, counterexample: a file above the size limit whose extension is not
    whitelisted is answered with [FILE_TYPE_INVALID], so "every oversized
    single file yields [INVALID_OPTIONS]" does not hold. *)
Lemma C3_counterexample_oversized_wrong_extension :
  ~ (forall (fam : Family) (sc : Scenario) (file : File) (cb : bool) (st : State),
        (52428800 < size file)%N ->
        exists msg d,
          fst (process fam sc (one_file file) cb st)
          = inr (Failure (mkError INVALID_OPTIONS msg d))).
Proof.
  intro H.
  destruct (H Presentation (engine_ok [] 1000 "%PDF")
              (mkFile "notes.txt" 62914560 "text/plain" "") true fresh eq_refl)
    as (msg & d & Hrun).
  vm_compute in Hrun. discriminate Hrun.
Qed.

Lemma string_app_assoc (a b c : string) : (a ++ b) ++ c = a ++ (b ++ c).
Proof.
  induction a as [| x a IH]; simpl; [reflexivity | now rewrite IH].
Qed.

(** [toFixed(1)] rounds ten times the size in MiB to the nearest integer. *)
Lemma tenths_of_MB_rounds (bytes : N) :
  (1048576 * Js.tenths_of_MB bytes <= 10 * bytes + 524288
   /\ 10 * bytes < 1048576 * Js.tenths_of_MB bytes + 524288)%N.
Proof.
  unfold Js.tenths_of_MB.
  pose proof (N.div_mod (20 * bytes + 1048576) 2097152 ltac:(discriminate)) as Hdm.
  pose proof (N.mod_lt (20 * bytes + 1048576) 2097152 ltac:(discriminate)) as Hlt.
  set (q := ((20 * bytes + 1048576) / 2097152)%N) in *.
  set (r := ((20 * bytes + 1048576) mod 2097152)%N) in *.
  clearbody q r. lia.
Qed.

(** C3 (amended): a single file with a whitelisted extension and a size
    above 52,428,800 bytes is answered with [INVALID_OPTIONS]; the message
    contains the size in MB (one decimal, rounded to nearest) and the limit
    in MB, which is 50. *)
Theorem C3_oversized_whitelisted_file_rejected :
  forall (fam : Family) (sc : Scenario) (file : File) (cb : bool) (st : State),
    Js.includes (validExts fam) (ext_of file) = true ->
    (52428800 < size file)%N ->
    exists msg d,
      process fam sc (one_file file) cb st
      = (inr (Failure (mkError INVALID_OPTIONS msg d)), entered cb st)
      /\ contains (Js.toFixed1_MB (size file) ++ " MB") msg
      /\ contains (Js.string_of_N (MAX_FILE_SIZE / 1024 / 1024) ++ " MB") msg
      /\ Js.string_of_N (MAX_FILE_SIZE / 1024 / 1024) = "50"
      /\ (1048576 * Js.tenths_of_MB (size file) <= 10 * size file + 524288
          /\ 10 * size file < 1048576 * Js.tenths_of_MB (size file) + 524288)%N.
Proof.
  intros fam sc file cb st Hext Hsize.
  exists (msg_too_large file).
  exists (Some ("File size: " ++ Js.string_of_N (size file) ++ " bytes, limit: "
                  ++ Js.string_of_N MAX_FILE_SIZE ++ " bytes")).
  split; [| split; [| split; [| split]]].
  - rewrite process_enters. cbn [one_file files]. rewrite Hext. cbn [negb].
    assert (Hlt : (MAX_FILE_SIZE <? size file)%N = true)
      by (apply N.ltb_lt; exact Hsize).
    rewrite Hlt. reflexivity.
  - unfold msg_too_large.
    exists "File is too large (".
    exists ("). Maximum supported size is "
              ++ Js.string_of_N (MAX_FILE_SIZE / 1024 / 1024) ++ " MB.").
    rewrite !string_app_assoc. reflexivity.
  - unfold msg_too_large.
    exists ("File is too large (" ++ Js.toFixed1_MB (size file)
              ++ " MB). Maximum supported size is ").
    exists ".".
    rewrite !string_app_assoc. reflexivity.
  - reflexivity.
  - apply tenths_of_MB_rounds.
Qed.

Lemma C3_witness_60MB_pptx :
  exists msg d,
    process Presentation (engine_ok [] 1000 "%PDF")
            (one_file (mkFile "deck.pptx" 62914560 "" "")) true fresh
    = (inr (Failure (mkError INVALID_OPTIONS msg d)), entered true fresh)
    /\ contains ("60.0" ++ " MB") msg.
Proof.
  destruct (C3_oversized_whitelisted_file_rejected Presentation
              (engine_ok [] 1000 "%PDF")
              (mkFile "deck.pptx" 62914560 "" "") true fresh eq_refl eq_refl)
    as (msg & d & Hrun & Hsize & _).
  exists msg, d. split; [exact Hrun | exact Hsize].
Defined.

(** ** File names *)

Lemma pop_cons2 (x y : string) (l : list string) :
  Js.pop (x :: y :: l) = Js.pop (y :: l).
Proof.
  unfold Js.pop. simpl. destruct (rev l) as [| a r]; reflexivity.
Qed.

Lemma split_no_dot (s : string) :
  has_dot s = false -> Js.split "." s = [s].
Proof.
  induction s as [| c s IH]; simpl; intro H; [reflexivity |].
  apply orb_false_elim in H. destruct H as [Hc Hs].
  rewrite Hc, (IH Hs). reflexivity.
Qed.

Lemma split_at_last_dot (pre seg : string) :
  has_dot seg = false ->
  exists a b l, Js.split "." (pre ++ "." ++ seg) = a :: b :: l
                /\ Js.pop (b :: l) = Some seg.
Proof.
  intro Hseg. induction pre as [| c pre IH].
  - exists EmptyString, seg, []. simpl. rewrite (split_no_dot seg Hseg). split; reflexivity.
  - destruct IH as (a & b & l & Hsplit & Hpop).
    change (String c pre ++ "." ++ seg) with (String c (pre ++ "." ++ seg)).
    cbn [Js.split]. rewrite Hsplit.
    destruct (Ascii.eqb c ".").
    + exists EmptyString, a, (b :: l). split; [reflexivity |].
      rewrite pop_cons2. exact Hpop.
    + exists (String c a), b, l. split; [reflexivity | exact Hpop].
Qed.

Lemma or_else_empty (x : string) : Js.or_else x EmptyString = x.
Proof. destruct x; reflexivity. Qed.

Lemma ext_of_dotted (pre seg ty : string) (sz : N) (c : Blob) :
  has_dot seg = false ->
  ext_of (mkFile (pre ++ "." ++ seg) sz ty c) = Js.toLowerCase seg.
Proof.
  intro Hseg. unfold ext_of. cbn [name].
  destruct (split_at_last_dot pre seg Hseg) as (a & b & l & Hsplit & Hpop).
  rewrite Hsplit, pop_cons2, Hpop. apply or_else_empty.
Qed.

Lemma ext_of_dotless (seg ty : string) (sz : N) (c : Blob) :
  has_dot seg = false ->
  ext_of (mkFile seg sz ty c) = Js.toLowerCase seg.
Proof.
  intro Hseg. unfold ext_of. cbn [name].
  rewrite (split_no_dot seg Hseg). apply or_else_empty.
Qed.

Lemma toLowerCase_char_dot (c : ascii) :
  Ascii.eqb (Js.toLowerCase_char c) "." = Ascii.eqb c ".".
Proof.
  destruct c as [[] [] [] [] [] [] [] []]; reflexivity.
Qed.

Lemma has_dot_toLowerCase (s : string) :
  has_dot (Js.toLowerCase s) = has_dot s.
Proof.
  induction s as [| c s IH]; simpl; [reflexivity |].
  rewrite toLowerCase_char_dot, IH. reflexivity.
Qed.

Lemma has_dot_app (a b : string) :
  has_dot (a ++ b) = orb (has_dot a) (has_dot b).
Proof.
  induction a as [| c a IH]; simpl; [reflexivity |].
  rewrite IH. apply orb_assoc.
Qed.

Lemma includes_dot_free (alts : list string) (x : string) :
  forallb (fun a => negb (has_dot a)) alts = true ->
  has_dot x = true ->
  Js.includes alts x = false.
Proof.
  unfold Js.includes. induction alts as [| a alts IH]; simpl; intros Hall Hx;
    [reflexivity |].
  apply andb_prop in Hall. destruct Hall as [Ha Hall].
  rewrite (IH Hall Hx), orb_false_r.
  destruct (String.eqb x a) eqn:E; [| reflexivity].
  apply String.eqb_eq in E. subst a. rewrite Hx in Ha. discriminate Ha.
Qed.

(** The pattern cuts exactly a final dot with one of its alternatives. *)
Lemma replace_strips_extension (alts : list string) (base e : string) :
  forallb (fun a => negb (has_dot a)) alts = true ->
  Js.includes alts (Js.toLowerCase e) = true ->
  Js.replace_dot_alt_at_end alts (base ++ "." ++ e) = base.
Proof.
  intros Hall He. induction base as [| c base IH].
  - change (EmptyString ++ "." ++ e) with (String "." e).
    cbn [Js.replace_dot_alt_at_end Js.dot_alt_to_end].
    rewrite He, Ascii.eqb_refl. reflexivity.
  - change (String c base ++ "." ++ e) with (String c (base ++ "." ++ e)).
    cbn [Js.replace_dot_alt_at_end Js.dot_alt_to_end].
    rewrite (includes_dot_free alts (Js.toLowerCase (base ++ "." ++ e)) Hall).
    + rewrite andb_false_r, IH. reflexivity.
    + rewrite has_dot_toLowerCase, has_dot_app. simpl. apply orb_true_r.
Qed.

(** Without a dot nothing is cut. *)
Lemma replace_keeps_dotless (alts : list string) (s : string) :
  has_dot s = false ->
  Js.replace_dot_alt_at_end alts s = s.
Proof.
  induction s as [| c s IH]; simpl; intro H; [reflexivity |].
  apply orb_false_elim in H. destruct H as [Hc Hs].
  rewrite Hc, (IH Hs). reflexivity.
Qed.

(** ** Running the provider and the processor *)

Lemma last_cons {A : Type} (a d : A) (l : list A) : last (a :: l) d = last l a.
Proof.
  revert a d. induction l as [| b l IH]; intros a d; [reflexivity |].
  change (last (a :: b :: l) d) with (last (b :: l) d).
  rewrite (IH b d), (IH b a). reflexivity.
Qed.

Lemma for_each_relay (l : list (Q * string)) (st : State) :
  for_each (fun r => relay (fst r) (snd r)) l st = (inr tt, relay_all l st).
Proof.
  revert st. induction l as [| r l IH]; intro st.
  - destruct st as [[q c o t] pm dm e d]. unfold relay_all. cbn.
    destruct o; rewrite app_nil_r; reflexivity.
  - cbn [for_each]. unfold bind, relay, updateProgress, modify at 1.
    rewrite IH. destruct st as [[q c o t] pm dm e d].
    unfold relay_all. cbn [self set_self set_delivered progress cancelled onProgress
      conversionProgressTimer presentation document engine delivered map fst snd].
    rewrite last_cons.
    destruct o; cbn [self set_self set_delivered progress cancelled onProgress
      conversionProgressTimer presentation document engine delivered map fst snd].
    + rewrite <- app_assoc. reflexivity.
    + reflexivity.
Qed.

Lemma for_each_silent {A : Type} (l : list A) (st : State) :
  for_each (fun _ : A => ret tt) l st = (inr tt, st).
Proof.
  induction l as [| r l IH]; [reflexivity |].
  cbn [for_each]. unfold bind, ret at 1. exact IH.
Qed.

Ltac run_monad :=
  cbv beta iota zeta delta
    [bind ret gets modify throw try_catch
     set_converterPromise set_converterInstance engine_initialize_starts
     engine_initialize_settles module_of set_module set_self set_engine set_delivered
     self presentation document engine delivered converterPromise converterInstance
     progress cancelled onProgress conversionProgressTimer
     ready initializing initialize_calls convertToPdf_calls
     import_fails engine_handle init_reports initialize_fails cancel_while_loading
     convert_outcome cancel_while_converting
     updateProgress super_reset checkCancelled cancel set_timer stopConversionProgress
     startConversionProgress reset set_onProgress convertToPdf_starts
     createErrorOutput createSuccessOutput entered].

Ltac run_provider :=
  repeat (run_monad; cbn [fst snd]; rewrite ?for_each_relay, ?for_each_silent).

Ltac provider_cases fam sc st :=
  unfold provider_result, provider_state, own_reports, getConverter, getConverter_sync,
    instance_if_ready, in_flight_settles, closure, closure_import, closure_initialize,
    getConverter_resume;
  let q := fresh "q" in let c := fresh "c" in let o := fresh "o" in
  let t := fresh "t" in let pm := fresh "pm" in let dm := fresh "dm" in
  let e := fresh "e" in let d := fresh "d" in let h := fresh "h" in
  let Hready := fresh "Hready" in
  destruct st as [[q c o t] pm dm e d];
  destruct sc as [[?imp |] ?h0 ?reps [?ini |] ?cl ?co ?cc];
  (destruct fam;
   [ destruct pm as [[[| | ?r] |] [h |]] | destruct dm as [[[| | ?r] |] [h |]] ]);
  try (destruct (isReady e h) eqn:Hready);
  run_provider; try rewrite Hready; run_provider.

Lemma getConverter_relay (fam : Family) (sc : Scenario) (st : State) :
  getConverter fam (Some relay) sc st
  = (provider_result fam sc st,
     relay_all (own_reports fam sc st) (provider_state fam sc st)).
Proof.
  provider_cases fam sc st.
  all: unfold relay_all; run_provider.
  all: try (destruct o; rewrite ?app_nil_r; reflexivity).
Qed.

(** The provider neither reads nor writes the processor instance and the
    callback log. *)
Lemma provider_ignores_processor (fam : Family) (sc : Scenario) (st : State)
    (p : Processor) (d : list (Q * string)) :
  let st' := mkState p (presentation st) (document st) (engine st) d in
  provider_result fam sc st' = provider_result fam sc st
  /\ own_reports fam sc st' = own_reports fam sc st
  /\ provider_state fam sc st'
     = mkState p (presentation (provider_state fam sc st))
               (document (provider_state fam sc st))
               (engine (provider_state fam sc st)) d.
Proof.
  provider_cases fam sc st.
  all: repeat split.
Qed.

Lemma provider_keeps_conversions (fam : Family) (sc : Scenario) (st : State) :
  convertToPdf_calls (engine (provider_state fam sc st))
  = convertToPdf_calls (engine st).
Proof.
  provider_cases fam sc st.
  all: reflexivity.
Qed.
Lemma clamp_5 : Qmin 100 (Qmax 0 5) = 5.
Proof. reflexivity. Qed.

Lemma clamp_85 : Qmin 100 (Qmax 0 85) = 85.
Proof. reflexivity. Qed.

Lemma clamp_100 : Qmin 100 (Qmax 0 100) = 100.
Proof. reflexivity. Qed.

Lemma loading_phase_entered (fam : Family) (sc : Scenario) (cb : bool) (st : State) :
  loading_phase fam sc (entered cb st)
  = (provider_result fam sc st, loaded fam sc cb st).
Proof.
  unfold loading_phase, await_getConverter.
  unfold bind at 1. unfold updateProgress at 1, modify at 1, entered.
  destruct cb.
  all: unfold set_delivered, set_self.
  all: cbn [self onProgress progress cancelled conversionProgressTimer
       presentation document engine delivered].
  all: rewrite clamp_5.
  all: unfold bind at 1.
  all: rewrite getConverter_relay.
  - destruct (provider_ignores_processor fam sc st (mkProcessor 5 false true None)
                (delivered st ++ [(5, msg_loading)])) as (Hres & Hown & Hst).
    cbv zeta in Hres, Hown, Hst. rewrite Hres, Hown, Hst.
    unfold loaded, relay_all.
    cbn [self presentation document engine delivered progress cancelled onProgress
         conversionProgressTimer].
    destruct (provider_result fam sc st) as [err | conv].
    + rewrite <- app_assoc. reflexivity.
    + destruct (cancel_while_loading sc); run_monad; rewrite <- app_assoc; reflexivity.
  - destruct (provider_ignores_processor fam sc st (mkProcessor 5 false false None)
                (delivered st)) as (Hres & Hown & Hst).
    cbv zeta in Hres, Hown, Hst. rewrite Hres, Hown, Hst.
    unfold loaded, relay_all.
    cbn [self presentation document engine delivered progress cancelled onProgress
         conversionProgressTimer].
    destruct (provider_result fam sc st) as [err | conv].
    + rewrite app_nil_r. reflexivity.
    + destruct (cancel_while_loading sc); run_monad; rewrite app_nil_r; reflexivity.
Qed.

Lemma tick_returns (st : State) : tick st = (inr tt, snd (tick st)).
Proof.
  unfold tick. run_monad.
  destruct st as [[q c o [msg |]] pm dm e d]; [| reflexivity].
  destruct (Qle_bool 98 q); reflexivity.
Qed.

Lemma repeat_tick_returns (n : nat) (st : State) :
  repeat_M n tick st = (inr tt, ticks n st).
Proof.
  unfold ticks. revert st. induction n as [| n IH]; intro st; [reflexivity |].
  cbn [repeat_M]. unfold bind. rewrite tick_returns. rewrite (IH (snd (tick st))).
  reflexivity.
Qed.

Lemma ticks_succ (n : nat) (st : State) :
  ticks (S n) st = ticks n (snd (tick st)).
Proof.
  unfold ticks. cbn [repeat_M]. unfold bind. rewrite tick_returns. reflexivity.
Qed.

(** A cleared interval changes nothing, however long one waits. *)
Lemma ticks_stopped (n : nat) (st : State) :
  conversionProgressTimer (self st) = None ->
  repeat_M n tick st = (inr tt, st).
Proof.
  intro Hnone. induction n as [| n IH]; [reflexivity |].
  cbn [repeat_M]. unfold bind.
  assert (Htick : tick st = (inr tt, st)).
  { unfold tick. run_monad. destruct st as [[q c o t] pm dm e d].
    cbn in Hnone. subst t. reflexivity. }
  rewrite Htick. exact IH.
Qed.

Lemma clamp_succ_above (q : Q) : q <= 100 -> q <= Qmin 100 (Qmax 0 (q + 1)).
Proof.
  intro H. apply Q.min_glb; [exact H |].
  apply Qle_trans with (q + 1); [| apply Q.le_max_r].
  rewrite <- (Qplus_0_r q) at 1. apply Qplus_le_r. discriminate.
Qed.

Lemma below_98 (q : Q) : Qle_bool 98 q = false -> q <= 100.
Proof.
  intro H. destruct (Qlt_le_dec q 98) as [Hlt | Hle].
  - apply Qlt_le_weak. apply Qlt_le_trans with 98; [exact Hlt | discriminate].
  - apply Qle_bool_iff in Hle. rewrite Hle in H. discriminate H.
Qed.

(** What [n] firings of a live interval do: they append non-decreasing
    values, none above 100, and touch nothing but the progress value. *)
Lemma ticks_facts (n : nat) (st : State) (msg : string) :
  conversionProgressTimer (self st) = Some msg ->
  exists vs,
    chain (progress (self st)) vs
    /\ Forall (fun v => v <= 100) vs
    /\ ticks n st
       = mkState (mkProcessor (last vs (progress (self st))) (cancelled (self st))
                              (onProgress (self st)) (Some msg))
                 (presentation st) (document st) (engine st)
                 (delivered st
                    ++ (if onProgress (self st) then map (fun v => (v, msg)) vs else [])).
Proof.
  revert st. induction n as [| n IH]; intros st Htimer.
  - exists []. split; [exact I | split; [constructor |]].
    destruct st as [[q c o t] pm dm e d]. cbn in Htimer. subst t.
    unfold ticks. cbn [repeat_M ret snd self progress cancelled onProgress
      presentation document engine delivered last map].
    destruct o; rewrite app_nil_r; reflexivity.
  - rewrite ticks_succ.
    destruct st as [[q c o t] pm dm e d]. cbn in Htimer. subst t.
    unfold tick. run_monad. cbn [snd].
    destruct (Qle_bool 98 q) eqn:Hq.
    + cbn [snd]. 
      destruct (IH (mkState (mkProcessor q c o (Some msg)) pm dm e d) eq_refl)
        as (vs & Hchain & Hall & Hst).
      exists vs. repeat split; assumption.
    + set (v := Qmin 100 (Qmax 0 (q + 1))).
      destruct o; cbn [snd].
      * destruct (IH (mkState (mkProcessor v c true (Some msg)) pm dm e
                              (d ++ [(v, msg)])) eq_refl)
          as (vs & Hchain & Hall & Hst).
        exists (v :: vs). split; [| split].
        -- split; [apply clamp_succ_above, below_98, Hq | exact Hchain].
        -- constructor; [apply Q.le_min_l | exact Hall].
        -- rewrite Hst. cbn [self progress cancelled onProgress presentation document
             engine delivered map]. rewrite last_cons, <- app_assoc. reflexivity.
      * destruct (IH (mkState (mkProcessor v c false (Some msg)) pm dm e d) eq_refl)
          as (vs & Hchain & Hall & Hst).
        exists (v :: vs). split; [| split].
        -- split; [apply clamp_succ_above, below_98, Hq | exact Hchain].
        -- constructor; [apply Q.le_min_l | exact Hall].
        -- rewrite Hst. cbn [self progress cancelled onProgress presentation document
             engine delivered map]. rewrite last_cons. reflexivity.
Qed.

Lemma process_valid_file (fam : Family) (sc : Scenario) (file : File) (cb : bool)
    (st : State) :
  Js.includes (validExts fam) (ext_of file) = true ->
  (size file <= MAX_FILE_SIZE)%N ->
  process fam sc (one_file file) cb st
  = try_catch (process_try fam sc file) (process_catch fam) (entered cb st).
Proof.
  intros Hext Hsize. rewrite process_enters. cbn [one_file files].
  rewrite Hext. cbn [negb].
  assert (Hlt : (MAX_FILE_SIZE <? size file)%N = false) by (apply N.ltb_ge; exact Hsize).
  rewrite Hlt. reflexivity.
Qed.

Lemma process_provider_fails (fam : Family) (sc : Scenario) (file : File) (cb : bool)
    (st : State) (e : Thrown) :
  Js.includes (validExts fam) (ext_of file) = true ->
  (size file <= MAX_FILE_SIZE)%N ->
  provider_result fam sc st = inl e ->
  process fam sc (one_file file) cb st
  = (inr (failed_output fam e), loaded fam sc cb st).
Proof.
  intros Hext Hsize Hprov. rewrite (process_valid_file fam sc file cb st Hext Hsize).
  unfold try_catch, process_try. unfold bind at 1.
  rewrite loading_phase_entered, Hprov.
  unfold process_catch, loaded. rewrite Hprov. reflexivity.
Qed.

Lemma process_cancelled_while_loading (fam : Family) (sc : Scenario) (file : File)
    (cb : bool) (st : State) (conv : option Handle) :
  Js.includes (validExts fam) (ext_of file) = true ->
  (size file <= MAX_FILE_SIZE)%N ->
  provider_result fam sc st = inr conv ->
  cancel_while_loading sc = true ->
  process fam sc (one_file file) cb st
  = (inr cancelled_output, loaded fam sc cb st).
Proof.
  intros Hext Hsize Hprov Hcl. rewrite (process_valid_file fam sc file cb st Hext Hsize).
  unfold try_catch, process_try. unfold bind at 1.
  rewrite loading_phase_entered, Hprov.
  unfold loaded. rewrite Hprov, Hcl. reflexivity.
Qed.

Lemma process_null_converter (fam : Family) (sc : Scenario) (file : File)
    (cb : bool) (st : State) :
  Js.includes (validExts fam) (ext_of file) = true ->
  (size file <= MAX_FILE_SIZE)%N ->
  provider_result fam sc st = inr None ->
  cancel_while_loading sc = false ->
  exists e st', process fam sc (one_file file) cb st = (inr (failed_output fam e), st')
                /\ convertToPdf_calls (engine st') = convertToPdf_calls (engine st).
Proof.
  intros Hext Hsize Hprov Hcl. rewrite (process_valid_file fam sc file cb st Hext Hsize).
  unfold try_catch, process_try. unfold bind at 1.
  rewrite loading_phase_entered, Hprov.
  unfold loaded. rewrite Hprov, Hcl.
  pose proof (provider_keeps_conversions fam sc st) as Hkeep.
  unfold await_race, process_catch. run_monad.
  destruct cb; (eexists; eexists; split; [reflexivity | exact Hkeep]).
Qed.

(** The run of [process] once the provider has answered with a handle and
    the first checkpoint has been passed. *)
Lemma process_converts (fam : Family) (sc : Scenario) (file : File) (cb : bool)
    (st : State) (h : Handle) :
  Js.includes (validExts fam) (ext_of file) = true ->
  (size file <= MAX_FILE_SIZE)%N ->
  provider_result fam sc st = inr (Some h) ->
  cancel_while_loading sc = false ->
  exists vs,
    chain 85 vs
    /\ Forall (fun v => v <= 100) vs
    /\ process fam sc (one_file file) cb st
       = let w := provider_state fam sc st in
         let e := engine w in
         let relayed := map relay_report (own_reports fam sc st) in
         let ticked := map (fun v => (v, msg_converting fam)) vs in
         let succeeds :=
           match snd (race (convert_outcome sc)) with
           | inr _ => negb (cancel_while_converting sc)
           | inl _ => false
           end in
         (inr (match snd (race (convert_outcome sc)) with
               | inl err => failed_output fam err
               | inr pdf =>
                   if cancel_while_converting sc then cancelled_output
                   else Success pdf (baseName fam file ++ ".pdf") [("format", "pdf")]
               end),
          mkState (mkProcessor (if succeeds then 100 else last vs 85)
                               (cancel_while_converting sc) cb None)
                  (presentation w) (document w)
                  (mkEngine (ready e) (initializing e) (initialize_calls e)
                            (convertToPdf_calls e ++ [(h, name file)]))
                  (delivered st
                     ++ (if cb then
                           (5, msg_loading) :: relayed
                             ++ (85, msg_converting fam) :: ticked
                             ++ (if succeeds then [(100, "Conversion complete!")] else [])
                         else []))).
Proof.
  intros Hext Hsize Hprov Hcl. rewrite (process_valid_file fam sc file cb st Hext Hsize).
  unfold try_catch, process_try. unfold bind at 1.
  rewrite loading_phase_entered, Hprov.
  unfold loaded. rewrite Hprov, Hcl.
  unfold await_race, process_catch, cancelled_output, failed_output.
  set (w := provider_state fam sc st).
  set (l := own_reports fam sc st).
  clearbody w l. clear Hprov Hcl.
  destruct sc as [imp h0 reps ini cl co cc].
  cbn [convert_outcome cancel_while_converting].
  set (n := N.to_nat (N.pred (fst (race co)) / TICK_MS)).
  set (outcome := snd (race co)).
  clearbody n outcome.
  destruct w as [wp wpm wdm [wr wi wc wt] wd].
  destruct st as [sp spm sdm se sd].
  destruct cb.
  all: run_monad; rewrite !clamp_85.
  all: match goal with
  | |- context [repeat_M ?k tick ?s] =>
      rewrite (repeat_tick_returns k s);
      destruct (ticks_facts k s (msg_converting fam) eq_refl) as (vs & Hchain & Hall & Hst);
      cbn [self progress cancelled onProgress presentation document engine delivered]
        in Hst, Hchain;
      rewrite Hst; clear Hst
  end.
  all: exists vs; split; [exact Hchain | split; [exact Hall |]].
  all: destruct cc; destruct outcome as [err | pdf].
  all: run_monad; rewrite ?clamp_100.
  all: cbn [negb]; rewrite <- ?app_assoc; cbn [app]; rewrite ?app_nil_r.
  all: reflexivity.
Qed.

(** Every way a call can end, by what the environment does. *)
Lemma success_inversion (fam : Family) (sc : Scenario) (input : ProcessInput)
    (cb : bool) (st : State) (pdf : Blob) (fname : string)
    (meta : list (string * string)) :
  fst (process fam sc input cb st) = inr (Success pdf fname meta) ->
  exists file h,
    input = one_file file
    /\ Js.includes (validExts fam) (ext_of file) = true
    /\ (size file <= MAX_FILE_SIZE)%N
    /\ provider_result fam sc st = inr (Some h)
    /\ cancel_while_loading sc = false
    /\ snd (race (convert_outcome sc)) = inr pdf
    /\ cancel_while_converting sc = false.
Proof.
  intro Hrun. destruct input as [fs].
  destruct fs as [| file [| f' fs]];
    try (rewrite process_enters in Hrun; cbn in Hrun; discriminate Hrun).
  destruct (Js.includes (validExts fam) (ext_of file)) eqn:Hext;
    [| rewrite process_enters in Hrun; cbn [files] in Hrun; rewrite Hext in Hrun;
       cbn in Hrun; discriminate Hrun].
  destruct (N.ltb MAX_FILE_SIZE (size file)) eqn:Hlt;
    [rewrite process_enters in Hrun; cbn [files] in Hrun; rewrite Hext, Hlt in Hrun;
     cbn in Hrun; discriminate Hrun |].
  apply N.ltb_ge in Hlt.
  change (mkInput [file]) with (one_file file) in Hrun.
  destruct (provider_result fam sc st) as [e | conv] eqn:Hprov.
  { rewrite (process_provider_fails fam sc file cb st e Hext Hlt Hprov) in Hrun.
    discriminate Hrun. }
  destruct (cancel_while_loading sc) eqn:Hcl.
  { rewrite (process_cancelled_while_loading fam sc file cb st conv Hext Hlt Hprov Hcl)
      in Hrun. discriminate Hrun. }
  destruct conv as [h |].
  2:{ destruct (process_null_converter fam sc file cb st Hext Hlt Hprov Hcl)
        as (e & st' & Heq & _).
      rewrite Heq in Hrun. discriminate Hrun. }
  destruct (process_converts fam sc file cb st h Hext Hlt Hprov Hcl)
    as (vs & _ & _ & Heq).
  rewrite Heq in Hrun. cbv zeta in Hrun. cbn [fst] in Hrun.
  exists file, h.
  destruct (snd (race (convert_outcome sc))) as [err | pdf'];
    [discriminate Hrun |].
  destruct (cancel_while_converting sc); [discriminate Hrun |].
  injection Hrun as Hpdf _ _. subst pdf'.
  repeat split; assumption || reflexivity.
Qed.

(** ** Order of the reported values *)

Lemma chain_weaken (q q' : Q) (vs : list Q) :
  q' <= q -> chain q vs -> chain q' vs.
Proof.
  destruct vs as [| v vs]; [intros; exact I |].
  intros Hq [Hv Hrest]. split; [apply Qle_trans with q; assumption | exact Hrest].
Qed.

Lemma chain_app (q : Q) (a b : list Q) :
  chain q a -> chain (last a q) b -> chain q (a ++ b).
Proof.
  revert q. induction a as [| v a IH]; intros q Ha Hb; [exact Hb |].
  destruct Ha as [Hv Ha]. rewrite last_cons in Hb.
  split; [exact Hv | apply IH; assumption].
Qed.

Lemma last_bounded (bound d : Q) (l : list Q) :
  d <= bound -> Forall (fun v => v <= bound) l -> last l d <= bound.
Proof.
  intros Hd Hall. revert d Hd. induction Hall as [| v l Hv Hall IH]; intros d Hd;
    [exact Hd |].
  rewrite last_cons. apply IH. exact Hv.
Qed.

(** ** Rounding of doubles *)

(** Facts about comparisons, read off [Qcompare]. *)
Ltac compare_facts :=
  repeat match goal with
         | H : Qcompare _ _ = Eq |- _ => apply <- Qeq_alt in H
         | H : Qcompare _ _ = Lt |- _ => apply <- Qlt_alt in H
         | H : Qcompare _ _ = Gt |- _ => apply <- Qgt_alt in H
         end.

Lemma round_half_even_bounds (q : Q) :
  (Qfloor q <= Js.round_half_even q <= Qfloor q + 1)%Z.
Proof.
  unfold Js.round_half_even.
  destruct (Qcompare (q - inject_Z (Qfloor q)) (1 # 2)); [| lia | lia].
  destruct (Z.even (Qfloor q)); lia.
Qed.

Lemma round_half_even_mono (p q : Q) :
  p <= q -> (Js.round_half_even p <= Js.round_half_even q)%Z.
Proof.
  intro Hpq.
  pose proof (Qfloor_resp_le p q Hpq) as Hf.
  pose proof (round_half_even_bounds p) as Hp.
  pose proof (round_half_even_bounds q) as Hq.
  destruct (Z.eq_dec (Qfloor p) (Qfloor q)) as [Heq | Hne]; [| lia].
  clear Hp Hq Hf. unfold Js.round_half_even. rewrite <- Heq.
  destruct (Qcompare (p - inject_Z (Qfloor p)) (1 # 2)) eqn:Cp;
    destruct (Qcompare (q - inject_Z (Qfloor p)) (1 # 2)) eqn:Cq;
    try (destruct (Z.even (Qfloor p))); try lia; exfalso.
  all: compare_facts; lra.
Qed.

Lemma round_half_even_integer (z : Z) : Js.round_half_even (inject_Z z) = z.
Proof.
  unfold Js.round_half_even. rewrite Qfloor_Z.
  assert (H : Qcompare (inject_Z z - inject_Z z) (1 # 2) = Lt).
  { apply -> Qlt_alt. generalize (inject_Z z). intro c. lra. }
  rewrite H. reflexivity.
Qed.

Lemma TINY_positive : 0 < inject_Z Js.TINY.
Proof. reflexivity. Qed.

Lemma inject_pow_positive (k : Z) : (0 <= k)%Z -> 0 < inject_Z (2 ^ k).
Proof.
  intro Hk. change 0 with (inject_Z 0). rewrite <- Zlt_Qlt.
  apply Z.pow_pos_nonneg; lia.
Qed.

Lemma round_nonneg_mono (x y : Q) :
  0 <= x -> x <= y -> Js.round_nonneg x <= Js.round_nonneg y.
Proof.
  intros Hx Hxy. unfold Js.round_nonneg.
  set (ux := x * inject_Z Js.TINY). set (uy := y * inject_Z Js.TINY).
  assert (Hux : 0 <= ux) by (unfold ux; apply Qmult_le_0_compat; [exact Hx | apply Qlt_le_weak, TINY_positive]).
  assert (Hu : ux <= uy).
  { unfold ux, uy. apply Qmult_le_compat_r; [exact Hxy | apply Qlt_le_weak, TINY_positive]. }
  set (nx := Qfloor ux). set (ny := Qfloor uy).
  assert (Hnx0 : (0 <= nx)%Z).
  { unfold nx. change 0%Z with (Qfloor 0). apply Qfloor_resp_le. exact Hux. }
  assert (Hn : (nx <= ny)%Z) by (apply Qfloor_resp_le; exact Hu).
  pose proof (Z.log2_le_mono nx ny Hn) as Hlog.
  set (kx := Z.max (Z.log2 nx - 52) 0). set (ky := Z.max (Z.log2 ny - 52) 0).
  assert (Hkx : (0 <= kx)%Z) by (unfold kx; lia).
  assert (Hky : (0 <= ky)%Z) by (unfold ky; lia).
  assert (Hk : (kx <= ky)%Z) by (unfold kx, ky; lia).
  pose proof (inject_pow_positive kx Hkx) as Hpx.
  pose proof (inject_pow_positive ky Hky) as Hpy.
  apply Qmult_le_compat_r; [| apply Qlt_le_weak, Qinv_lt_0_compat, TINY_positive].
  rewrite <- Zle_Qle.
  destruct (Z.eq_dec kx ky) as [Heq | Hne].
  - rewrite <- Heq. apply Z.mul_le_mono_nonneg_r; [apply Z.pow_nonneg; lia |].
    apply round_half_even_mono.
    apply Qmult_le_compat_r; [exact Hu | apply Qlt_le_weak, Qinv_lt_0_compat, Hpx].
  - assert (Hlt : (kx < ky)%Z) by lia.
    assert (Hup : (Js.round_half_even (ux / inject_Z (2 ^ kx)) <= 2 ^ 53)%Z).
    { rewrite <- (round_half_even_integer (2 ^ 53)). apply round_half_even_mono.
      apply Qle_shift_div_r; [exact Hpx |].
      rewrite <- inject_Z_mult, <- Z.pow_add_r by lia.
      apply Qle_trans with (inject_Z (nx + 1)).
      - apply Qlt_le_weak. apply Qlt_floor.
      - rewrite <- Zle_Qle.
        destruct (Z.eq_dec nx 0) as [-> | Hnz].
        + assert (H1 : (2 ^ 0 <= 2 ^ (53 + kx))%Z) by (apply Z.pow_le_mono_r; lia).
          change (2 ^ 0)%Z with 1%Z in H1. lia.
        + pose proof (Z.log2_spec nx ltac:(lia)) as [_ Hs].
          assert (H2 : (2 ^ Z.succ (Z.log2 nx) <= 2 ^ (53 + kx))%Z)
            by (apply Z.pow_le_mono_r; unfold kx; lia).
          lia. }
    assert (Hny : (0 < ny)%Z).
    { destruct (Z.le_gt_cases ny 0) as [Hle | Hgt]; [| exact Hgt].
      exfalso. assert (Z.log2 ny = 0%Z) by (apply Z.log2_nonpos; exact Hle).
      unfold ky in Hlt. lia. }
    assert (Hkyeq : ky = (Z.log2 ny - 52)%Z) by (unfold ky in *; lia).
    assert (Hlo : (2 ^ 52 <= Js.round_half_even (uy / inject_Z (2 ^ ky)))%Z).
    { rewrite <- (round_half_even_integer (2 ^ 52)). apply round_half_even_mono.
      apply Qle_shift_div_l; [exact Hpy |].
      rewrite <- inject_Z_mult, <- Z.pow_add_r by lia.
      apply Qle_trans with (inject_Z ny); [| apply Qfloor_le].
      rewrite <- Zle_Qle.
      pose proof (Z.log2_spec ny Hny) as [Hs _].
      replace (52 + ky)%Z with (Z.log2 ny) by lia. exact Hs. }
    apply Z.le_trans with (2 ^ 53 * 2 ^ kx)%Z.
    + apply Z.mul_le_mono_nonneg_r; [apply Z.pow_nonneg; lia | exact Hup].
    + apply Z.le_trans with (2 ^ 52 * 2 ^ ky)%Z.
      * rewrite <- !Z.pow_add_r by lia. apply Z.pow_le_mono_r; lia.
      * apply Z.mul_le_mono_nonneg_r; [apply Z.pow_nonneg; lia | exact Hlo].
Qed.

Lemma round_nonneg_nonneg (x : Q) : 0 <= x -> 0 <= Js.round_nonneg x.
Proof.
  intro Hx. unfold Js.round_nonneg.
  set (u := x * inject_Z Js.TINY).
  assert (Hu : 0 <= u) by (unfold u; apply Qmult_le_0_compat; [exact Hx | apply Qlt_le_weak, TINY_positive]).
  set (k := Z.max (Z.log2 (Qfloor u) - 52) 0).
  assert (Hk : (0 <= k)%Z) by (unfold k; lia).
  apply Qmult_le_0_compat; [| apply Qlt_le_weak, Qinv_lt_0_compat, TINY_positive].
  change 0 with (inject_Z 0). rewrite <- Zle_Qle.
  apply Z.mul_nonneg_nonneg; [| apply Z.pow_nonneg; lia].
  pose proof (round_half_even_bounds (u / inject_Z (2 ^ k))) as [Hb _].
  apply Z.le_trans with (Qfloor (u / inject_Z (2 ^ k))); [| exact Hb].
  change 0%Z with (Qfloor 0). apply Qfloor_resp_le.
  apply Qmult_le_0_compat; [exact Hu |].
  apply Qlt_le_weak, Qinv_lt_0_compat, inject_pow_positive, Hk.
Qed.

Lemma round_double_mono (x y : Q) : x <= y -> Js.round_double x <= Js.round_double y.
Proof.
  intro Hxy. unfold Js.round_double.
  destruct (Qcompare x 0) eqn:Cx; destruct (Qcompare y 0) eqn:Cy.
  all: compare_facts.
  all: try (exfalso; lra).
  all: try (apply round_nonneg_mono; lra).
  - apply Qle_trans with 0; [| apply round_nonneg_nonneg; lra].
    assert (H : 0 <= Js.round_nonneg (- x)) by (apply round_nonneg_nonneg; lra). lra.
  - assert (H : Js.round_nonneg (- y) <= Js.round_nonneg (- x)) by (apply round_nonneg_mono; lra).
    lra.
  - apply Qle_trans with 0; [| apply round_nonneg_nonneg; lra].
    assert (H : 0 <= Js.round_nonneg (- x)) by (apply round_nonneg_nonneg; lra). lra.
Qed.

Lemma round_double_nonneg (x : Q) : 0 <= x -> 0 <= Js.round_double x.
Proof.
  intro Hx. unfold Js.round_double.
  destruct (Qcompare x 0) eqn:Cx; try (apply round_nonneg_nonneg; exact Hx).
  apply Qlt_alt in Cx. exfalso. lra.
Qed.

Lemma round_half_even_below (q : Q) (n : Z) :
  q < inject_Z n - (1 # 2) -> (Js.round_half_even q <= n - 1)%Z.
Proof.
  intro Hq.
  pose proof (round_half_even_bounds q) as [_ Hb].
  pose proof (Qfloor_le q) as Hf.
  assert (Hfn : (Qfloor q < n)%Z).
  { rewrite Zlt_Qlt. revert Hq Hf.
    generalize (inject_Z (Qfloor q)) (inject_Z n). intros a b Hq Hf. lra. }
  destruct (Z.eq_dec (Qfloor q) (n - 1)) as [Heq | Hne]; [| lia].
  unfold Js.round_half_even.
  assert (Hc : Qcompare (q - inject_Z (Qfloor q)) (1 # 2) = Lt).
  { apply -> Qlt_alt. rewrite Heq. unfold Z.sub. rewrite inject_Z_plus.
    change (inject_Z (- (1))) with (- (1)). revert Hq.
    generalize (inject_Z n). intros a Ha. lra. }
  rewrite Hc. lia.
Qed.

Lemma round_double_of_positive (x : Q) : 0 <= x -> Js.round_double x = Js.round_nonneg x.
Proof.
  intro Hx. unfold Js.round_double.
  destruct (Qcompare x 0) eqn:Cx; try reflexivity.
  compare_facts. exfalso. lra.
Qed.

(** Between 4 and 8 the doubles are [2^-50] apart, and 5 has an even
    significand: the rationals that round to 5 or more are those from
    [5 - 2^-51] on. *)
Lemma round_double_below_5 (x : Q) :
  x < 5 - (1 # 2251799813685248) -> Js.round_double x < 5.
Proof.
  intro Hx.
  destruct (Qlt_le_dec x 4) as [Hlt | Hge].
  - apply Qle_lt_trans with (Js.round_double 4).
    + apply round_double_mono. apply Qlt_le_weak. exact Hlt.
    + vm_compute. reflexivity.
  - rewrite round_double_of_positive by lra.
    unfold Js.round_nonneg.
    set (u := x * inject_Z Js.TINY).
    pose proof TINY_positive as HT.
    assert (H4 : inject_Z (2 ^ 1076) == 4 * inject_Z Js.TINY) by (vm_compute; reflexivity).
    assert (H8 : inject_Z (2 ^ 1077) == 8 * inject_Z Js.TINY) by (vm_compute; reflexivity).
    assert (Hsplit : inject_Z Js.TINY == inject_Z (2 ^ 50) * inject_Z (2 ^ 1024))
      by (vm_compute; reflexivity).
    assert (HP : 0 < inject_Z (2 ^ 1024)) by reflexivity.
    assert (Hlo : inject_Z (2 ^ 1076) <= u).
    { rewrite H4. unfold u. apply Qmult_le_compat_r; [exact Hge | apply Qlt_le_weak, HT]. }
    assert (Hhi : u < inject_Z (2 ^ 1077)).
    { rewrite H8. unfold u. apply Qmult_lt_compat_r; [exact HT | lra]. }
    assert (Hlog : Z.log2 (Qfloor u) = 1076%Z).
    { apply Z.log2_unique; [lia |]. split.
      - rewrite <- (Qfloor_Z (2 ^ 1076)). apply Qfloor_resp_le. exact Hlo.
      - change (Z.succ 1076) with 1077%Z. rewrite Zlt_Qlt.
        apply Qle_lt_trans with u; [apply Qfloor_le | exact Hhi]. }
    rewrite Hlog. change (Z.max (1076 - 52) 0) with 1024%Z.
    assert (Hr : (Js.round_half_even (u / inject_Z (2 ^ 1024)) <= 5 * 2 ^ 50 - 1)%Z).
    { apply round_half_even_below.
      apply Qlt_shift_div_r; [exact HP |].
      unfold u. rewrite Hsplit, Qmult_assoc.
      apply Qmult_lt_compat_r; [exact HP |].
      change (inject_Z (2 ^ 50)) with (1125899906842624 # 1).
      change (inject_Z (5 * 2 ^ 50)) with (5629499534213120 # 1).
      unfold Qlt in *. simpl in *. lia. }
    apply Qlt_shift_div_r; [exact HT |].
    change 5 with (inject_Z 5). rewrite <- inject_Z_mult, <- Zlt_Qlt.
    apply Z.le_lt_trans with ((5 * 2 ^ 50 - 1) * 2 ^ 1024)%Z.
    + apply Z.mul_le_mono_nonneg_r; [apply Z.pow_nonneg; lia | exact Hr].
    + vm_compute. reflexivity.
Qed.

Lemma round_double_at_least_5 (x : Q) :
  5 <= Js.round_double x <-> 5 - (1 # 2251799813685248) <= x.
Proof.
  split; intro H.
  - destruct (Qlt_le_dec x (5 - (1 # 2251799813685248))) as [Hlt | Hge]; [| exact Hge].
    exfalso. pose proof (round_double_below_5 x Hlt). lra.
  - apply Qle_trans with (Js.round_double (5 - (1 # 2251799813685248))).
    + vm_compute. discriminate.
    + apply round_double_mono. exact H.
Qed.

(** The literal [0.8] denotes the double nearest to 4/5; [3 * 0.8] is
    2.4000000000000004 on doubles, and [6.25 * 0.8] is 5. *)
Example double_0_8_is_nearest : Js.round_double (8 # 10) == Js.double_0_8.
Proof. vm_compute. reflexivity. Qed.

Example mul_double_3 :
  Js.mul_double 3 Js.double_0_8 == 1351079888211149 # 562949953421312.
Proof. vm_compute. reflexivity. Qed.

Example mul_double_6_25 : Js.mul_double (25 # 4) Js.double_0_8 == 5.
Proof. vm_compute. reflexivity. Qed.

(** ** The relay closure *)

Lemma mul_double_0_8_mono (p q : Q) :
  p <= q -> Js.mul_double p Js.double_0_8 <= Js.mul_double q Js.double_0_8.
Proof.
  intro H. unfold Js.mul_double. apply round_double_mono.
  apply Qmult_le_compat_r; [exact H | discriminate].
Qed.

Lemma mul_double_0_8_nonneg (p : Q) : 0 <= p -> 0 <= Js.mul_double p Js.double_0_8.
Proof.
  intro H. unfold Js.mul_double. apply round_double_nonneg.
  apply Qmult_le_0_compat; [exact H | discriminate].
Qed.

Lemma relay_value_le_80 (p : Q) : relay_value p <= 80.
Proof.
  unfold relay_value.
  apply Qle_trans with (Qmax 0 (Qmin (Js.mul_double p Js.double_0_8) 80));
    [apply Q.le_min_r |].
  apply Q.max_lub; [discriminate | apply Q.le_min_r].
Qed.

Lemma relay_value_ge_0 (p : Q) : 0 <= relay_value p.
Proof.
  unfold relay_value. apply Q.min_glb; [discriminate | apply Q.le_max_l].
Qed.

Lemma relay_value_mono (p q : Q) : p <= q -> relay_value p <= relay_value q.
Proof.
  intro H. unfold relay_value.
  apply Q.min_le_compat_l. apply Q.max_le_compat_l. apply Q.min_le_compat_r.
  apply mul_double_0_8_mono. exact H.
Qed.

(** In range the clamp of [updateProgress] is the identity, so the relayed
    value is [Math.min(p * 0.8, 80)], the product taken on doubles. *)
Lemma relay_value_in_range (p : Q) :
  0 <= p -> relay_value p == Qmin (Js.mul_double p Js.double_0_8) 80.
Proof.
  intro Hp. unfold relay_value.
  assert (H0 : 0 <= Qmin (Js.mul_double p Js.double_0_8) 80).
  { apply Q.min_glb; [| discriminate]. apply mul_double_0_8_nonneg. exact Hp. }
  rewrite (Q.max_r _ _ H0).
  apply Q.min_r. apply Qle_trans with 80; [apply Q.le_min_r | discriminate].
Qed.

(** The relayed value reaches 5 exactly when the exact product of the
    percentage and the double [0.8] is within half a spacing of 5. *)
Lemma relay_value_at_least_5 (p : Q) :
  0 <= p ->
  (5 <= relay_value p <-> 5 - (1 # 2251799813685248) <= p * Js.double_0_8).
Proof.
  intro Hp. rewrite (relay_value_in_range p Hp). split; intro H.
  - apply round_double_at_least_5.
    apply Qle_trans with (Qmin (Js.mul_double p Js.double_0_8) 80);
      [exact H | apply Q.le_min_l].
  - apply Q.min_glb; [| discriminate].
    apply round_double_at_least_5. exact H.
Qed.

(** [6.25 * 0.8] is 5 on doubles, and so is the product for the double
    just below 6.25, [6.25 - 2^-50]; for the double before that one,
    [6.25 - 2^-49], the product is below 5. *)
Lemma relay_value_at_6_25 : 5 <= relay_value (25 # 4).
Proof. vm_compute. discriminate. Qed.

Lemma relay_value_from_6_25 (p : Q) :
  (25 # 4) - (1 # 1125899906842624) <= p -> 5 <= relay_value p.
Proof.
  intro H.
  apply Qle_trans with (relay_value ((25 # 4) - (1 # 1125899906842624)));
    [vm_compute; discriminate | apply relay_value_mono, H].
Qed.

Lemma relay_value_below_6_25 (p : Q) :
  p <= (25 # 4) - (1 # 562949953421312) -> relay_value p < 5.
Proof.
  intro H.
  apply Qle_lt_trans with (relay_value ((25 # 4) - (1 # 562949953421312)));
    [apply relay_value_mono, H | vm_compute; reflexivity].
Qed.

Lemma chain_relay_values (q : Q) (ps : list Q) :
  chain q ps -> chain (relay_value q) (map relay_value ps).
Proof.
  revert q. induction ps as [| p ps IH]; intros q H; [exact I |].
  destruct H as [Hq Hps]. split; [apply relay_value_mono, Hq | apply IH, Hps].
Qed.

Lemma skipn_length_app {A : Type} (a b : list A) : skipn (length a) (a ++ b) = b.
Proof.
  induction a as [| x a IH]; [reflexivity | exact IH].
Qed.

Lemma own_reports_cases (fam : Family) (sc : Scenario) (st : State) :
  own_reports fam sc st = init_reports sc \/ own_reports fam sc st = [].
Proof.
  unfold own_reports.
  destruct (fst (getConverter_sync fam st)) as [e | [h | |]]; auto.
  destruct (import_fails sc); auto.
Qed.

(** What the callback receives during a successful call. *)
Lemma success_reported (fam : Family) (sc : Scenario) (input : ProcessInput)
    (st : State) (pdf : Blob) (fname : string) (meta : list (string * string)) :
  fst (process fam sc input true st) = inr (Success pdf fname meta) ->
  exists vs,
    chain 85 vs /\ Forall (fun v => v <= 100) vs
    /\ reported st (process fam sc input true st)
       = (5, msg_loading) :: map relay_report (own_reports fam sc st)
           ++ (85, msg_converting fam) :: map (fun v => (v, msg_converting fam)) vs
           ++ [(100, "Conversion complete!")].
Proof.
  intro Hrun.
  destruct (success_inversion fam sc input true st pdf fname meta Hrun)
    as (file & h & Hin & Hext & Hsize & Hprov & Hcl & Hrace & Hcc).
  subst input.
  destruct (process_converts fam sc file true st h Hext Hsize Hprov Hcl)
    as (vs & Hchain & Hall & Heq).
  exists vs. split; [exact Hchain | split; [exact Hall |]].
  unfold reported. rewrite Heq. cbv zeta. rewrite Hrace, Hcc.
  cbn [snd delivered negb]. apply skipn_length_app.
Qed.

(** C1, counterexample: an engine whose first report is 0% makes the
    reported values 5, 0, 85, 86, 100, which is not non-decreasing. *)
Lemma C1_counterexample_engine_reports_zero :
  ~ (forall (fam : Family) (sc : Scenario) (input : ProcessInput) (st : State)
            (pdf : Blob) (fname : string) (meta : list (string * string)),
        fst (process fam sc input true st) = inr (Success pdf fname meta) ->
        let vs := map fst (reported st (process fam sc input true st)) in
        nondecreasing vs /\ last vs 0 = 100).
Proof.
  intro H.
  specialize (H Presentation (engine_ok [(0, "Starting")] 1000 "%PDF")
                (one_file (mkFile "deck.pptx" 2048 "" "")) fresh
                "%PDF" "deck.pdf" [("format", "pdf")] eq_refl).
  destruct H as [Hmono _]. vm_compute in Hmono.
  destruct Hmono as [H50 _]. apply H50. reflexivity.
Qed.

(** C1 (amended): in every successful call the last value handed to the
    callback is exactly 100; and when the percentages the engine reports
    during initialization are non-decreasing and at least 6.25 (so that
    every relayed value is at least 5), the values handed to the callback
    are non-decreasing. *)
Theorem C1_progress_nondecreasing_and_ends_at_100 :
  forall (fam : Family) (sc : Scenario) (input : ProcessInput) (st : State)
         (pdf : Blob) (fname : string) (meta : list (string * string)),
    fst (process fam sc input true st) = inr (Success pdf fname meta) ->
    let vs := map fst (reported st (process fam sc input true st)) in
    last vs 0 = 100
    /\ (chain (25 # 4) (map fst (init_reports sc)) -> nondecreasing vs).
Proof.
  intros fam sc input st pdf fname meta Hrun vs.
  destruct (success_reported fam sc input st pdf fname meta Hrun)
    as (ts & Hchain & Hall & Heq).
  assert (Hvs : vs = 5 :: map relay_value (map fst (own_reports fam sc st))
                       ++ 85 :: ts ++ [100]).
  { unfold vs. rewrite Heq. cbn [map fst]. f_equal.
    rewrite map_app. cbn [map fst]. rewrite map_app. cbn [map fst].
    rewrite !map_map. unfold relay_report. cbn [fst].
    rewrite map_id. reflexivity. }
  rewrite Hvs. split.
  - rewrite app_comm_cons, (app_comm_cons _ _ 85), app_assoc.
    apply last_last.
  - intro Hengine. cbn [nondecreasing].
    assert (Hown : chain (25 # 4) (map fst (own_reports fam sc st))).
    { destruct (own_reports_cases fam sc st) as [-> | ->]; [exact Hengine | exact I]. }
    apply chain_app.
    + apply chain_weaken with (relay_value (25 # 4)); [apply relay_value_at_6_25 |].
      apply chain_relay_values. exact Hown.
    + split.
      * apply Qle_trans with 80; [| discriminate].
        apply last_bounded; [discriminate |].
        apply Forall_forall. intros v Hv. apply in_map_iff in Hv.
        destruct Hv as (p & <- & _). apply relay_value_le_80.
      * apply chain_app; [exact Hchain |].
        split; [| exact I].
        apply last_bounded; [discriminate | exact Hall].
Qed.

Lemma C1_witness_monotone_engine :
  let sc := engine_ok [(10, "Loading"); (50, "Compiling"); (100, "Ready")] 2500 "%PDF" in
  let input := one_file (mkFile "deck.pptx" 2048 "" "") in
  map (fun r => Qred (fst r)) (reported fresh (process Presentation sc input true fresh))
  = [5; 8; 40; 80; 85; 86; 87; 88; 100]
  /\ nondecreasing (map fst (reported fresh (process Presentation sc input true fresh))).
Proof.
  intros sc input.
  destruct (C1_progress_nondecreasing_and_ends_at_100 Presentation sc input fresh
              "%PDF" "deck.pdf" [("format", "pdf")] eq_refl) as [Hlast Hmono].
  split.
  - vm_compute. reflexivity.
  - apply Hmono. vm_compute. repeat split; discriminate.
Defined.

(** ** The loading phase *)

Lemma own_reports_when_starting (fam : Family) (sc : Scenario) (st : State) :
  converterPromise (module_of fam st) = None ->
  converterInstance (module_of fam st) = None ->
  import_fails sc = None ->
  own_reports fam sc st = init_reports sc.
Proof.
  intros Hp Hi Himp. unfold own_reports, getConverter_sync, instance_if_ready.
  destruct sc as [imp h0 reps ini cl co cc]. cbn in Himp. subst imp.
  destruct st as [sp [pp pi] [dp di] se sd]; destruct fam; cbn in Hp, Hi; subst;
    reflexivity.
Qed.

(** C7, counterexample: a report of 0% is relayed as 0, below the 5% that
    was reported before it. *)
Lemma C7_counterexample_zero_percent_below_band :
  ~ (forall (fam : Family) (sc : Scenario) (st : State),
        Forall (fun r => 0 <= fst r /\ fst r <= 100) (init_reports sc) ->
        Forall (fun d => 5 <= fst d /\ fst d <= 80)
               (tl (reported st (loading_phase fam sc (entered true st))))).
Proof.
  intro H.
  specialize (H Presentation (engine_ok [(0, "Starting")] 1000 "%PDF") fresh).
  assert (Hrange : Forall (fun r : Q * string => 0 <= fst r /\ fst r <= 100)
                          (init_reports (engine_ok [(0, "Starting")] 1000 "%PDF"))).
  { repeat constructor; discriminate. }
  specialize (H Hrange). vm_compute in H.
  inversion H as [| d l [H5 _] _]. apply H5. reflexivity.
Qed.

Lemma loading_phase_reported (fam : Family) (sc : Scenario) (st : State) :
  reported st (loading_phase fam sc (entered true st))
  = (5, msg_loading) :: map relay_report (own_reports fam sc st).
Proof.
  unfold reported. rewrite loading_phase_entered. unfold loaded.
  cbn [snd delivered]. apply skipn_length_app.
Qed.

(** C7 (amended): during an initialization this call starts, each engine
    report of a percentage [p] in 0..100 reaches the callback, after the 5%
    report, as [Math.min(p * 0.8, 80)], the product taken on doubles, with
    the engine's message.  These values lie between 0 and 80.  One of them
    is at least 5 exactly when the exact product of [p] and the double [0.8]
    is at least [5 - 2^-51], the midpoint below 5; on doubles that is from
    [p = 6.25 - 2^-50] (6.249999999999999) on, and not yet at the double
    before it, [6.25 - 2^-49]. *)
Theorem C7_engine_reports_relayed_scaled :
  forall (fam : Family) (sc : Scenario) (st : State),
    converterPromise (module_of fam st) = None ->
    converterInstance (module_of fam st) = None ->
    import_fails sc = None ->
    Forall (fun r => 0 <= fst r /\ fst r <= 100) (init_reports sc) ->
    exists relayed,
      reported st (loading_phase fam sc (entered true st)) = (5, msg_loading) :: relayed
      /\ Forall2 (fun r d =>
                    fst d == Qmin (Js.mul_double (fst r) Js.double_0_8) 80
                    /\ snd d = snd r
                    /\ 0 <= fst d /\ fst d <= 80
                    /\ (5 <= fst d
                        <-> 5 - (1 # 2251799813685248) <= fst r * Js.double_0_8)
                    /\ ((25 # 4) - (1 # 1125899906842624) <= fst r -> 5 <= fst d)
                    /\ (fst r <= (25 # 4) - (1 # 562949953421312) -> fst d < 5))
                 (init_reports sc) relayed.
Proof.
  intros fam sc st Hp Hi Himp Hrange.
  exists (map relay_report (init_reports sc)). split.
  - rewrite loading_phase_reported.
    rewrite (own_reports_when_starting fam sc st Hp Hi Himp). reflexivity.
  - induction Hrange as [| r l [Hr0 Hr100] Hl IH]; [constructor |].
    cbn [map]. constructor; [| exact IH].
    unfold relay_report. cbn [fst snd].
    split; [apply relay_value_in_range, Hr0 |].
    split; [reflexivity |].
    split; [apply relay_value_ge_0 |].
    split; [apply relay_value_le_80 |].
    split; [apply relay_value_at_least_5, Hr0 |].
    split; [apply relay_value_from_6_25 | apply relay_value_below_6_25].
Qed.

(** C7, witness: reports of 0, 3, 6.249999999999999, 50 and 100 percent are
    relayed as 0, 2.4000000000000004, 5, 40 and 80. *)
Lemma C7_witness_five_reports :
  let sc := engine_ok [(0, "Starting"); (3, "Fetching");
                       ((25 # 4) - (1 # 1125899906842624), "Linking");
                       (50, "Compiling"); (100, "Ready")] 1000 "%PDF" in
  exists relayed,
    reported fresh (loading_phase Document sc (entered true fresh))
    = (5, msg_loading) :: relayed
    /\ map (fun d => Qred (fst d)) relayed
       = [0; 1351079888211149 # 562949953421312; 5; 40; 80].
Proof.
  intro sc.
  destruct (C7_engine_reports_relayed_scaled Document sc fresh eq_refl eq_refl eq_refl)
    as (relayed & Heq & _).
  - unfold sc. repeat constructor; discriminate.
  - exists relayed. split; [exact Heq |].
    vm_compute in Heq. injection Heq as <-. reflexivity.
Defined.

(** ** Timeout *)

Lemma race_times_out (o : ConvOutcome) :
  settles_in_time o = false ->
  race o = (CONVERT_TIMEOUT_MS, inl (JsError msg_timeout)).
Proof.
  destruct o as [t pdf | t e |]; cbn [settles_in_time race]; intro H;
    try rewrite H; reflexivity.
Qed.

Lemma prefix_of_append (n post : string) : String.prefix n (n ++ post) = true.
Proof.
  apply String.prefix_correct.
  induction n as [| c n IH]; [destruct post; reflexivity |].
  cbn [String.append String.length String.substring]. rewrite IH. reflexivity.
Qed.

Lemma contains_containsb (needle hay : string) :
  contains needle hay -> containsb needle hay = true.
Proof.
  intros (pre & post & ->).
  induction pre as [| c pre IH].
  - cbn [String.append]. destruct (needle ++ post) eqn:E; cbn [containsb];
      rewrite <- E, prefix_of_append; reflexivity.
  - cbn [String.append containsb]. rewrite IH. apply orb_true_r.
Qed.

(** C5, counterexample: a conversion that never settles ends with
    [PROCESSING_FAILED], but the error's message is the fixed
    "Failed to convert PowerPoint to PDF.": it states neither the duration
    of the timeout nor the hint. *)
Lemma C5_counterexample_message_is_generic :
  let sc := mkScenario None 1%nat [] None false ConvNever false in
  let r := process Presentation sc (one_file (mkFile "deck.pptx" 2048 "" "")) true fresh in
  settles_in_time (convert_outcome sc) = false
  /\ exists e,
       fst r = inr (Failure e)
       /\ code e = PROCESSING_FAILED
       /\ message e = "Failed to convert PowerPoint to PDF."
       /\ ~ contains "5 minutes" (message e)
       /\ ~ contains "too complex" (message e).
Proof.
  intros sc r. split; [reflexivity |].
  exists (mkError PROCESSING_FAILED "Failed to convert PowerPoint to PDF."
            (Some "Conversion timed out after 5 minutes. The file may be too complex.")).
  split; [vm_compute; reflexivity |].
  split; [reflexivity |].
  split; [reflexivity |].
  split; intro H; apply contains_containsb in H; vm_compute in H; discriminate H.
Qed.

(** C5 (amended): when the conversion has not settled 300,000 ms after it
    was started (the clock starts at the call of [convertToPdf], after the
    provider has answered), the call ends with [PROCESSING_FAILED]; the
    error's message is the fixed "Failed to convert ... to PDF.", and the
    timeout text, with the duration and the hint, is the error's detail;
    the interval is cleared, so later timer slots deliver nothing. *)
Theorem C5_timeout_fails_and_stops_ticker :
  forall (fam : Family) (sc : Scenario) (file : File) (cb : bool) (st : State)
         (h : Handle),
    Js.includes (validExts fam) (ext_of file) = true ->
    (size file <= MAX_FILE_SIZE)%N ->
    provider_result fam sc st = inr (Some h) ->
    cancel_while_loading sc = false ->
    settles_in_time (convert_outcome sc) = false ->
    let r := process fam sc (one_file file) cb st in
    fst r = inr (Failure (mkError PROCESSING_FAILED (msg_failed fam)
                   (Some "Conversion timed out after 5 minutes. The file may be too complex.")))
    /\ conversionProgressTimer (self (snd r)) = None
    /\ (forall n, repeat_M n tick (snd r) = (inr tt, snd r))
    /\ CONVERT_TIMEOUT_MS = 300000%N.
Proof.
  intros fam sc file cb st h Hext Hsize Hprov Hcl Hlate r.
  destruct (process_converts fam sc file cb st h Hext Hsize Hprov Hcl)
    as (vs & _ & _ & Heq).
  cbv zeta in Heq. rewrite (race_times_out _ Hlate) in Heq. cbn [snd] in Heq.
  assert (Htimer : conversionProgressTimer (self (snd r)) = None)
    by (unfold r; rewrite Heq; reflexivity).
  split; [unfold r; rewrite Heq; reflexivity |].
  split; [exact Htimer |].
  split; [| reflexivity].
  intro n. apply ticks_stopped. exact Htimer.
Qed.

Lemma C5_witness_conversion_never_settles :
  let sc := mkScenario None 1%nat [] None false ConvNever false in
  let r := process Presentation sc (one_file (mkFile "deck.pptx" 2048 "" "")) true fresh in
  fst r = inr (Failure (mkError PROCESSING_FAILED "Failed to convert PowerPoint to PDF."
                 (Some "Conversion timed out after 5 minutes. The file may be too complex.")))
  /\ repeat_M 5 tick (snd r) = (inr tt, snd r).
Proof.
  intros sc r.
  destruct (C5_timeout_fails_and_stops_ticker Presentation sc
              (mkFile "deck.pptx" 2048 "" "") true fresh 1%nat
              eq_refl ltac:(discriminate) eq_refl eq_refl eq_refl)
    as (Hout & _ & Hticks & _).
  split.
  - exact Hout.
  - apply Hticks.
Defined.

(** ** Cancellation *)

(** C6: when [cancel()] has been called by the time the flag is sampled
    after the provider call, the call ends with [PROCESSING_CANCELLED] and
    [convertToPdf] is not invoked; when the race is won by a completed
    conversion and [cancel()] has been called by the time the flag is
    sampled again, the call ends with [PROCESSING_CANCELLED] and the PDF is
    not returned. *)
Theorem C6_cancellation_checkpoints :
  forall (fam : Family) (sc : Scenario) (file : File) (cb : bool) (st : State),
    Js.includes (validExts fam) (ext_of file) = true ->
    (size file <= MAX_FILE_SIZE)%N ->
    let r := process fam sc (one_file file) cb st in
    (forall conv,
        provider_result fam sc st = inr conv ->
        cancel_while_loading sc = true ->
        fst r = inr (Failure (mkError PROCESSING_CANCELLED "Processing was cancelled." None))
        /\ convertToPdf_calls (engine (snd r)) = convertToPdf_calls (engine st))
    /\ (forall h pdf,
        provider_result fam sc st = inr (Some h) ->
        cancel_while_loading sc = false ->
        snd (race (convert_outcome sc)) = inr pdf ->
        cancel_while_converting sc = true ->
        fst r = inr (Failure (mkError PROCESSING_CANCELLED "Processing was cancelled." None))
        /\ convertToPdf_calls (engine (snd r))
           = (convertToPdf_calls (engine st) ++ [(h, name file)])%list).
Proof.
  intros fam sc file cb st Hext Hsize r. split.
  - intros conv Hprov Hcl. unfold r.
    rewrite (process_cancelled_while_loading fam sc file cb st conv Hext Hsize Hprov Hcl).
    split; [reflexivity |].
    unfold loaded. cbn [snd engine]. apply provider_keeps_conversions.
  - intros h pdf Hprov Hcl Hrace Hcc. unfold r.
    destruct (process_converts fam sc file cb st h Hext Hsize Hprov Hcl)
      as (vs & _ & _ & Heq).
    rewrite Heq. cbv zeta. rewrite Hrace, Hcc. cbn [fst snd engine convertToPdf_calls].
    split; [reflexivity |].
    rewrite provider_keeps_conversions. reflexivity.
Qed.

Lemma C6_witness_both_checkpoints :
  let file := mkFile "deck.pptx" 2048 "" "" in
  let early := mkScenario None 1%nat [] None true (ConvResolves 1000 "%PDF") false in
  let late := mkScenario None 1%nat [] None false (ConvResolves 1000 "%PDF") true in
  (fst (process Presentation early (one_file file) true fresh)
   = inr (Failure (mkError PROCESSING_CANCELLED "Processing was cancelled." None))
   /\ convertToPdf_calls (engine (snd (process Presentation early (one_file file) true fresh)))
      = [])
  /\ fst (process Presentation late (one_file file) true fresh)
     = inr (Failure (mkError PROCESSING_CANCELLED "Processing was cancelled." None)).
Proof.
  intros file early late. split.
  - exact (proj1 (C6_cancellation_checkpoints Presentation early file true fresh
                    eq_refl ltac:(discriminate))
                 (Some 1%nat) eq_refl eq_refl).
  - exact (proj1 (proj2 (C6_cancellation_checkpoints Presentation late file true fresh
                           eq_refl ltac:(discriminate))
                        1%nat "%PDF" eq_refl eq_refl eq_refl eq_refl)).
Defined.

(** ** Output file name *)

Lemma last_dot_decomposition (s : string) :
  has_dot s = false
  \/ exists base e, s = base ++ "." ++ e /\ has_dot e = false.
Proof.
  induction s as [| c s IH]; [left; reflexivity |].
  destruct IH as [Hnone | (base & e & Heq & He)].
  - destruct (Ascii.eqb c ".") eqn:Hc.
    + right. exists EmptyString, s. apply Ascii.eqb_eq in Hc. subst c.
      split; [reflexivity | exact Hnone].
    + left. cbn [has_dot]. rewrite Hc, Hnone. reflexivity.
  - right. exists (String c base), e. subst s. split; [reflexivity | exact He].
Qed.

Lemma ext_pattern_dot_free (fam : Family) :
  forallb (fun a => negb (has_dot a)) (ext_pattern fam) = true.
Proof. destruct fam; reflexivity. Qed.

Lemma ext_pattern_is_validExts (fam : Family) : ext_pattern fam = validExts fam.
Proof. destruct fam; reflexivity. Qed.

(** What the pattern leaves of an accepted file name. *)
Lemma baseName_of_accepted (fam : Family) (file : File) :
  Js.includes (validExts fam) (ext_of file) = true ->
  (has_dot (name file) = false /\ baseName fam file = name file)
  \/ (exists base e,
         name file = base ++ "." ++ e
         /\ Js.includes (validExts fam) (Js.toLowerCase e) = true
         /\ baseName fam file = base).
Proof.
  intro Hext. destruct file as [nm sz ty c]. cbn [name] in *. unfold baseName.
  cbn [name].
  destruct (last_dot_decomposition nm) as [Hnone | (base & e & Heq & He)].
  - left. split; [exact Hnone | apply replace_keeps_dotless, Hnone].
  - right. exists base, e. subst nm.
    rewrite (ext_of_dotted base e ty sz c He) in Hext.
    split; [reflexivity | split; [exact Hext |]].
    apply replace_strips_extension; [apply ext_pattern_dot_free |].
    rewrite ext_pattern_is_validExts. exact Hext.
Qed.

(** C8: a successful call names its output after the input: the input's
    name with a final dot and whitelisted extension (in any letter case) cut
    off, followed by [.pdf]; the metadata is exactly [{format: 'pdf'}].
    [Report.DOCX] gives [Report.pdf], [slides.v2.pptx] gives
    [slides.v2.pdf]. *)
Theorem C8_output_filename_and_metadata :
  (forall (fam : Family) (sc : Scenario) (input : ProcessInput) (cb : bool) (st : State)
          (pdf : Blob) (fname : string) (meta : list (string * string)),
      fst (process fam sc input cb st) = inr (Success pdf fname meta) ->
      exists file,
        files input = [file]
        /\ fname = baseName fam file ++ ".pdf"
        /\ meta = [("format", "pdf")]
        /\ ((has_dot (name file) = false /\ fname = name file ++ ".pdf")
            \/ (exists base e,
                   name file = base ++ "." ++ e
                   /\ Js.includes (validExts fam) (Js.toLowerCase e) = true
                   /\ fname = base ++ ".pdf")))
  /\ (forall sz ty c,
        baseName Document (mkFile "Report.DOCX" sz ty c) ++ ".pdf" = "Report.pdf")
  /\ (forall sz ty c,
        baseName Presentation (mkFile "slides.v2.pptx" sz ty c) ++ ".pdf"
        = "slides.v2.pdf")
  /\ fst (process Document (engine_ok [] 1000 "%PDF")
            (one_file (mkFile "Report.DOCX" 2048 "" "")) true fresh)
     = inr (Success "%PDF" "Report.pdf" [("format", "pdf")])
  /\ fst (process Presentation (engine_ok [] 1000 "%PDF")
            (one_file (mkFile "slides.v2.pptx" 2048 "" "")) true fresh)
     = inr (Success "%PDF" "slides.v2.pdf" [("format", "pdf")]).
Proof.
  split; [| repeat split].
  intros fam sc input cb st pdf fname meta Hrun.
  destruct (success_inversion fam sc input cb st pdf fname meta Hrun)
    as (file & h & Hin & Hext & Hsize & Hprov & Hcl & Hrace & Hcc).
  subst input. exists file. split; [reflexivity |].
  destruct (process_converts fam sc file cb st h Hext Hsize Hprov Hcl)
    as (vs & _ & _ & Heq).
  rewrite Heq in Hrun. cbv zeta in Hrun. rewrite Hrace, Hcc in Hrun.
  cbn [fst] in Hrun. injection Hrun as Hname Hmeta.
  split; [symmetry; exact Hname |].
  split; [symmetry; exact Hmeta |].
  subst fname.
  destruct (baseName_of_accepted fam file Hext)
    as [[Hnone Hbase] | (base & e & Hn & He & Hbase)].
  - left. rewrite Hbase. split; [exact Hnone | reflexivity].
  - right. exists base, e. rewrite Hbase. repeat split; assumption.
Qed.

Lemma C8_witness_named_examples :
  exists file,
    files (one_file (mkFile "Report.DOCX" 2048 "" "")) = [file]
    /\ "Report.pdf" = baseName Document file ++ ".pdf".
Proof.
  destruct (proj1 C8_output_filename_and_metadata Document (engine_ok [] 1000 "%PDF")
              (one_file (mkFile "Report.DOCX" 2048 "" "")) true fresh
              "%PDF" "Report.pdf" [("format", "pdf")] eq_refl)
    as (file & Hfiles & Hname & _).
  exists file. split; [exact Hfiles | exact Hname].
Defined.

(** C10: the type check looks at nothing but the lowercased segment after
    the last dot, and at the whole name when there is no dot; so a file whose
    whole name is a whitelisted extension, like [pptx], passes it, and since
    the pattern needs a dot, a successful call names its output by the whole
    name followed by [.pdf], like [pptx.pdf]. *)
Theorem C10_dotless_extension_name :
  forall (fam : Family) (nm : string),
    has_dot nm = false ->
    (forall pre ty sz c, ext_of (mkFile (pre ++ "." ++ nm) sz ty c) = Js.toLowerCase nm)
    /\ (forall ty sz c, ext_of (mkFile nm sz ty c) = Js.toLowerCase nm)
    /\ (Js.includes (validExts fam) (Js.toLowerCase nm) = true ->
        forall sc ty sz c cb st pdf fname meta,
          fst (process fam sc (one_file (mkFile nm sz ty c)) cb st)
          = inr (Success pdf fname meta) ->
          fname = nm ++ ".pdf")
    /\ Js.includes (validExts Presentation) (ext_of (mkFile "pptx" 0 "" "")) = true
    /\ fst (process Presentation (engine_ok [] 1000 "%PDF")
              (one_file (mkFile "pptx" 2048 "" "")) true fresh)
       = inr (Success "%PDF" "pptx.pdf" [("format", "pdf")]).
Proof.
  intros fam nm Hnm.
  split; [intros; apply ext_of_dotted; exact Hnm |].
  split; [intros; apply ext_of_dotless; exact Hnm |].
  split; [| split; reflexivity].
  intros Hin sc ty sz c cb st pdf fname meta Hrun.
  destruct (success_inversion fam sc _ cb st pdf fname meta Hrun)
    as (file & h & Hfile & Hext & Hsize & Hprov & Hcl & Hrace & Hcc).
  injection Hfile as <-.
  destruct (process_converts fam sc (mkFile nm sz ty c) cb st h Hext Hsize Hprov Hcl)
    as (vs & _ & _ & Heq).
  rewrite Heq in Hrun. cbv zeta in Hrun. rewrite Hrace, Hcc in Hrun.
  cbn [fst] in Hrun. injection Hrun as Hname _. subst fname.
  unfold baseName. cbn [name]. rewrite (replace_keeps_dotless _ nm Hnm). reflexivity.
Qed.

Lemma C10_witness_file_named_pptx :
  ext_of (mkFile "pptx" 2048 "" "") = "pptx"
  /\ ext_of (mkFile "deck.v2.PpTx" 2048 "" "") = "pptx"
  /\ "pptx.pdf" = "pptx" ++ ".pdf".
Proof.
  destruct (C10_dotless_extension_name Presentation "PpTx" eq_refl) as (Hdotted & _).
  destruct (C10_dotless_extension_name Presentation "pptx" eq_refl)
    as (_ & Hplain & Hname & _).
  split; [exact (Hplain "" 2048%N "") |].
  split; [exact (Hdotted "deck.v2" "" 2048%N "") |].
  exact (Hname eq_refl (engine_ok [] 1000 "%PDF") "" 2048%N "" true fresh
               "%PDF" "pptx.pdf" [("format", "pdf")] eq_refl).
Defined.

(** ** The provider *)

Lemma ready_returns_immediately (fam : Family) (cb : option (Q -> string -> M unit))
    (sc : Scenario) (st : State) (h : Handle) :
  converterInstance (module_of fam st) = Some h ->
  isReady (engine st) h = true ->
  getConverter_sync fam st = (inr (ReturnedReady h), st)
  /\ getConverter fam cb sc st = (inr (Some h), st).
Proof.
  intros Hi Hr. unfold getConverter, getConverter_sync, instance_if_ready.
  destruct st as [sp [pp pi] [dp di] se sd]; destruct fam; cbn in Hi, Hr; subst;
    run_monad; rewrite Hr; split; reflexivity.
Qed.

Lemma in_flight_joins (fam : Family) (st : State) (p : Promise) :
  fst (instance_if_ready fam st) = inr None ->
  converterPromise (module_of fam st) = Some p ->
  getConverter_sync fam st = (inr AwaitsInFlight, st).
Proof.
  intros Hn Hp. unfold getConverter_sync.
  unfold bind at 1.
  destruct (instance_if_ready fam st) as [r st'] eqn:Hir.
  assert (Hst : st' = st) by (unfold instance_if_ready, gets in Hir; congruence).
  subst st'. cbn [fst] in Hn. subst r.
  run_monad. 
  destruct st as [sp [pp pi] [dp di] se sd]; destruct fam; cbn in Hp; subst; reflexivity.
Qed.

Lemma resume_keeps_state (fam : Family) (st : State) :
  snd (getConverter_resume fam st) = st.
Proof.
  unfold getConverter_resume. run_monad.
  destruct st as [sp [pp pi] [dp di] se sd]; destruct fam;
    [destruct pp as [[| | e] |] | destruct dp as [[| | e] |]]; reflexivity.
Qed.

(** A rejected [converterPromise] is awaited again by every later call. *)
Lemma rejected_promise_is_awaited_again (fam : Family)
    (cb : option (Q -> string -> M unit)) (sc : Scenario) (st : State) (e : Thrown) :
  fst (instance_if_ready fam st) = inr None ->
  converterPromise (module_of fam st) = Some (Rejected e) ->
  getConverter fam cb sc st = (inl e, st).
Proof.
  intros Hn Hp. unfold getConverter. unfold bind at 1.
  rewrite (in_flight_joins fam st (Rejected e) Hn Hp).
  unfold in_flight_settles, getConverter_resume. run_monad.
  destruct st as [sp [pp pi] [dp di] se sd]; destruct fam; cbn in Hp; subst; reflexivity.
Qed.

Lemma remove_one_In (h : Handle) (l : list Handle) :
  In h l -> Permutation l (h :: remove_one h l).
Proof.
  induction l as [| x l IH]; intro Hin; [destruct Hin |].
  cbn [remove_one]. destruct (Nat.eqb h x) eqn:E.
  - apply Nat.eqb_eq in E. subst x. reflexivity.
  - destruct Hin as [-> | Hin]; [rewrite Nat.eqb_refl in E; discriminate E |].
    rewrite (IH Hin) at 1. apply perm_swap.
Qed.

Lemma remove_one_Permutation (h : Handle) (l rest : list Handle) :
  Permutation l (h :: rest) -> Permutation (remove_one h l) rest.
Proof.
  intro H. apply Permutation_cons_inv with h.
  rewrite <- (remove_one_In h l); [exact H |].
  apply Permutation_in with (h :: rest); [symmetry; exact H | left; reflexivity].
Qed.

Lemma fresh_invariant : provider_invariant fresh.
Proof.
  repeat split; [constructor | intros [|] _; reflexivity].
Qed.

Ltac solve_invariant Hperm Hcalls HnP HnD :=
  cbn [snd engine presentation document initializing initialize_calls
       converterPromise converterInstance in_flight initialized app module_of] in *;
  first
    [ specialize (HnP eq_refl); discriminate HnP
    | specialize (HnD eq_refl); discriminate HnD
    | split; [| split];
      [ first [ exact Hperm
              | apply remove_one_Permutation; rewrite Hperm;
                first [ reflexivity | apply perm_swap ]
              | rewrite Hperm; first [ reflexivity | apply perm_swap ] ]
      | first [ exact Hcalls | rewrite Hcalls; reflexivity | lia ]
      | intros [|]; cbn; intros; first [ reflexivity | discriminate | auto ] ] ].

Lemma exec_invariant (a : Action) (st : State) :
  provider_invariant st -> provider_invariant (exec a st).
Proof.
  intros (Hperm & Hcalls & Hnone).
  pose proof (Hnone Presentation) as HnP. pose proof (Hnone Document) as HnD.
  clear Hnone. unfold provider_invariant.
  destruct st as [sp [pp pi] [dp di] [er ei ec et] sd].
  destruct a as [fam | fam sc | fam sc];
    [| destruct sc as [[imp |] h0 reps ini cl co cc]
     | destruct sc as [imp h0 reps [ini |] cl co cc]].
  all: unfold exec, getConverter_sync, instance_if_ready, closure_import,
         closure_initialize.
  all: destruct fam.
  all: destruct pp as [[| | pe] |]; destruct pi as [ph |];
       destruct dp as [[| | de] |]; destruct di as [dh |].
  all: run_monad; cbn [snd]; rewrite ?for_each_silent.
  all: try match goal with
           | |- context [isReady ?e ?h] => destruct (isReady e h)
           end.
  all: run_monad; cbn [snd].
  all: solve_invariant Hperm Hcalls HnP HnD.
Qed.

Lemma run_actions_invariant (l : list Action) (st : State) :
  provider_invariant st -> provider_invariant (run_actions l st).
Proof.
  revert st. induction l as [| a l IH]; intros st Hinv; [exact Hinv |].
  cbn [run_actions fold_left]. apply IH. apply exec_invariant. exact Hinv.
Qed.

Lemma in_flight_at_most_one (m : ModuleState) : (length (in_flight m) <= 1)%nat.
Proof.
  destruct m as [[[| | e] |] [h |]]; cbn; lia.
Qed.

Lemma initialized_at_most_one (m : ModuleState) : (initialized m <= 1)%nat.
Proof.
  destruct m as [p [h |]]; cbn; lia.
Qed.

(** No action replaces a module's handle or clears its promise. *)
Lemma exec_keeps_instance (a : Action) (fam : Family) (st : State) (h : Handle) :
  converterInstance (module_of fam st) = Some h ->
  converterInstance (module_of fam (exec a st)) = Some h.
Proof.
  intro Hi.
  destruct st as [sp [pp pi] [dp di] [er ei ec et] sd].
  destruct a as [fam' | fam' sc | fam' sc];
    [| destruct sc as [[imp |] h0 reps ini cl co cc]
     | destruct sc as [imp h0 reps [ini |] cl co cc]].
  all: unfold exec, getConverter_sync, instance_if_ready, closure_import,
         closure_initialize.
  all: destruct fam'; destruct fam; cbn in Hi; subst.
  all: destruct pp as [[| | pe] |]; try destruct pi as [ph |];
       destruct dp as [[| | de] |]; try destruct di as [dh |].
  all: run_monad; cbn [snd]; rewrite ?for_each_silent.
  all: try match goal with
           | |- context [isReady ?e ?h] => destruct (isReady e h)
           end.
  all: reflexivity.
Qed.

Lemma exec_keeps_promise (a : Action) (fam : Family) (st : State) :
  converterPromise (module_of fam st) <> None ->
  converterPromise (module_of fam (exec a st)) <> None.
Proof.
  intro Hp.
  destruct st as [sp [pp pi] [dp di] [er ei ec et] sd].
  destruct a as [fam' | fam' sc | fam' sc];
    [| destruct sc as [[imp |] h0 reps ini cl co cc]
     | destruct sc as [imp h0 reps [ini |] cl co cc]].
  all: unfold exec, getConverter_sync, instance_if_ready, closure_import,
         closure_initialize.
  all: destruct fam'; destruct fam; cbn in Hp.
  all: destruct pp as [[| | pe] |]; destruct pi as [ph |];
       destruct dp as [[| | de] |]; destruct di as [dh |].
  all: try (exfalso; apply Hp; reflexivity).
  all: run_monad; cbn [snd]; rewrite ?for_each_silent.
  all: try match goal with
           | |- context [isReady ?e ?h] => destruct (isReady e h)
           end.
  all: run_monad; cbn [snd]; discriminate.
Qed.

(** What an awaiting caller receives once the promise has settled. *)
Lemma resume_answer (fam : Family) (st : State) :
  fst (getConverter_resume fam st)
  = match converterPromise (module_of fam st) with
    | Some (Rejected e) => inl e
    | _ => inr (converterInstance (module_of fam st))
    end.
Proof.
  unfold getConverter_resume. run_monad.
  destruct st as [sp [pp pi] [dp di] se sd]; destruct fam;
    [destruct pp as [[| | e] |] | destruct dp as [[| | e] |]]; reflexivity.
Qed.

(** A caller that finds the promise pending and [initialize] in flight
    receives what that call of [initialize] settles to, and the state is
    the one the settlement alone leaves. *)
Lemma joins_pending_initialize (fam : Family) (cb : option (Q -> string -> M unit))
    (sc : Scenario) (st : State) (h : Handle) :
  converterPromise (module_of fam st) = Some Pending ->
  converterInstance (module_of fam st) = Some h ->
  isReady (engine st) h = false ->
  getConverter fam cb sc st
  = (match initialize_fails sc with
     | Some e => inl e
     | None => inr (Some h)
     end, exec (Settles fam sc) st)
  /\ initialize_calls (engine (exec (Settles fam sc) st)) = initialize_calls (engine st).
Proof.
  intros Hp Hi Hr.
  unfold exec, getConverter, getConverter_sync, instance_if_ready, in_flight_settles,
    closure, closure_import, closure_initialize, getConverter_resume.
  destruct sc as [imp h0 reps [ini |] cl co cc];
    destruct st as [sp [pp pi] [dp di] [er ei ec et] sd]; destruct fam;
    cbn in Hp, Hi; cbn [engine] in Hr; subst; run_provider; rewrite Hr; run_provider;
    split; reflexivity.
Qed.

(** A caller that finds the promise pending and the import not yet done
    receives what the pending closure settles to; the closure makes its one
    call of [initialize], the caller makes none. *)
Lemma joins_pending_import (fam : Family) (cb : option (Q -> string -> M unit))
    (sc : Scenario) (st : State) :
  converterPromise (module_of fam st) = Some Pending ->
  converterInstance (module_of fam st) = None ->
  getConverter fam cb sc st
  = (match import_fails sc, initialize_fails sc with
     | Some e, _ => inl e
     | None, Some e => inl e
     | None, None => inr (Some (engine_handle sc))
     end, run_actions [Imports fam sc; Settles fam sc] st)
  /\ initialize_calls (engine (run_actions [Imports fam sc; Settles fam sc] st))
     = match import_fails sc with
       | Some _ => initialize_calls (engine st)
       | None => S (initialize_calls (engine st))
       end.
Proof.
  intros Hp Hi.
  unfold run_actions, fold_left, exec, getConverter, getConverter_sync, instance_if_ready,
    in_flight_settles, closure, closure_import, closure_initialize, getConverter_resume.
  destruct sc as [[imp |] h0 reps [ini |] cl co cc];
    destruct st as [sp [pp pi] [dp di] [er ei ec et] sd]; destruct fam;
    cbn in Hp, Hi; subst; run_provider; split; reflexivity.
Qed.

(** The caller that starts the initialization and a caller that joins it,
    before or after the import, end with the same answer and the same
    state. *)
Lemma joiner_shares_outcome (fam : Family) (cb : option (Q -> string -> M unit))
    (sc : Scenario) (st : State) :
  converterPromise (module_of fam st) = None ->
  converterInstance (module_of fam st) = None ->
  let started := exec (Calls fam) st in
  let starter := getConverter fam None sc st in
  converterPromise (module_of fam started) = Some Pending
  /\ getConverter fam cb sc started = starter
  /\ (isReady (engine st) (engine_handle sc) = false ->
      getConverter fam cb sc (exec (Imports fam sc) started) = starter)
  /\ fst (getConverter fam (Some relay) sc st) = fst starter
  /\ fst starter
     = match import_fails sc, initialize_fails sc with
       | Some e, _ => inl e
       | None, Some e => inl e
       | None, None => inr (Some (engine_handle sc))
       end
  /\ initialize_calls (engine (snd starter))
     = match import_fails sc with
       | Some _ => initialize_calls (engine st)
       | None => S (initialize_calls (engine st))
       end.
Proof.
  intros Hp Hi started starter.
  split; [| split; [| split; [| split; [| split]]]].
  4: { rewrite getConverter_relay. reflexivity. }
  all: unfold starter, started, exec, getConverter, getConverter_sync, instance_if_ready,
    in_flight_settles, closure, closure_import, closure_initialize, getConverter_resume.
  all: destruct sc as [[imp |] h0 reps [ini |] cl co cc];
    destruct st as [sp [pp pi] [dp di] [er ei ec et] sd]; destruct fam;
    cbn in Hp, Hi; subst; run_provider; try reflexivity.
  all: intro Hr; unfold isReady in Hr |- *; cbn [engine ready] in Hr; run_provider;
    rewrite Hr; run_provider; reflexivity.
Qed.

(** Callers that arrive while the promise is set change nothing. *)
Lemma joiners_leave_state (fam : Family) (st : State) (p : Promise) (k : nat) :
  fst (instance_if_ready fam st) = inr None ->
  converterPromise (module_of fam st) = Some p ->
  run_actions (repeat (Calls fam) k) st = st.
Proof.
  intros Hn Hp. induction k as [| k IH]; [reflexivity |].
  cbn [repeat run_actions fold_left exec].
  rewrite (in_flight_joins fam st p Hn Hp). exact IH.
Qed.

(** C9, counterexample: the presentation module and the document module
    each start an initialization of their own, and both are in flight at
    once. *)
Lemma C9_counterexample_two_modules_initialize :
  ~ (forall l : list Action,
        (length (initializing (engine (run_actions l fresh))) <= 1)%nat).
Proof.
  intro H.
  specialize (H [Calls Presentation; Imports Presentation (engine_ok [] 1000 "%PDF");
                 Calls Document; Imports Document (engine_ok [] 1000 "%PDF")]).
  vm_compute in H. lia.
Qed.

(** C9 (amended): each processor module keeps a converter of its own.
    Within a module: a ready handle is returned at once and the state is
    left as it was; while the module's promise is set, a caller starts
    nothing and awaits that promise, and resuming leaves the state as it
    was; over all interleavings from a fresh page the [initialize] calls in
    flight are exactly those of the modules whose promise is pending, at
    most one per module and two in all; [initialize] is called at most once
    per module, and a module's handle, once set, stays.

    Awaiting callers share the outcome: a caller resumes with the rejection
    reason of a rejected promise and with the module's handle otherwise; a
    caller that joins while [initialize] is in flight receives the reason
    when that call fails and its handle when it succeeds, and the state is
    the one the settlement alone leaves, with no further call of
    [initialize]; a caller that joins before the import is done receives
    what the pending closure settles to, the closure having made its single
    call of [initialize]; the caller that starts an initialization and a
    caller that joins it, before or after the import, and with whatever
    callback, end with the same answer and the same state; and any number
    of callers arriving while the promise is set leave the state as it
    is. *)
Theorem C9_one_converter_per_module :
  (forall fam cb sc st h,
      converterInstance (module_of fam st) = Some h ->
      isReady (engine st) h = true ->
      getConverter fam cb sc st = (inr (Some h), st))
  /\ (forall fam st p,
      fst (instance_if_ready fam st) = inr None ->
      converterPromise (module_of fam st) = Some p ->
      getConverter_sync fam st = (inr AwaitsInFlight, st))
  /\ (forall fam st, snd (getConverter_resume fam st) = st)
  /\ (forall l,
      let st := run_actions l fresh in
      Permutation (initializing (engine st))
                  (in_flight (presentation st) ++ in_flight (document st))
      /\ (length (in_flight (presentation st)) <= 1)%nat
      /\ (length (in_flight (document st)) <= 1)%nat
      /\ (length (initializing (engine st)) <= 2)%nat
      /\ initialize_calls (engine st)
         = (initialized (presentation st) + initialized (document st))%nat
      /\ (initialize_calls (engine st) <= 2)%nat)
  /\ (forall a fam st h,
      converterInstance (module_of fam st) = Some h ->
      converterInstance (module_of fam (exec a st)) = Some h)
  /\ (forall a fam st,
      converterPromise (module_of fam st) <> None ->
      converterPromise (module_of fam (exec a st)) <> None)
  /\ (forall fam st,
      getConverter_resume fam st
      = (match converterPromise (module_of fam st) with
         | Some (Rejected e) => inl e
         | _ => inr (converterInstance (module_of fam st))
         end, st))
  /\ (forall fam cb sc st h,
      converterPromise (module_of fam st) = Some Pending ->
      converterInstance (module_of fam st) = Some h ->
      isReady (engine st) h = false ->
      getConverter fam cb sc st
      = (match initialize_fails sc with
         | Some e => inl e
         | None => inr (Some h)
         end, exec (Settles fam sc) st)
      /\ initialize_calls (engine (exec (Settles fam sc) st))
         = initialize_calls (engine st))
  /\ (forall fam cb sc st,
      converterPromise (module_of fam st) = Some Pending ->
      converterInstance (module_of fam st) = None ->
      getConverter fam cb sc st
      = (match import_fails sc, initialize_fails sc with
         | Some e, _ => inl e
         | None, Some e => inl e
         | None, None => inr (Some (engine_handle sc))
         end, run_actions [Imports fam sc; Settles fam sc] st)
      /\ initialize_calls (engine (run_actions [Imports fam sc; Settles fam sc] st))
         = match import_fails sc with
           | Some _ => initialize_calls (engine st)
           | None => S (initialize_calls (engine st))
           end)
  /\ (forall fam cb sc st,
      converterPromise (module_of fam st) = None ->
      converterInstance (module_of fam st) = None ->
      let started := exec (Calls fam) st in
      let starter := getConverter fam None sc st in
      converterPromise (module_of fam started) = Some Pending
      /\ getConverter fam cb sc started = starter
      /\ (isReady (engine st) (engine_handle sc) = false ->
          getConverter fam cb sc (exec (Imports fam sc) started) = starter)
      /\ fst (getConverter fam (Some relay) sc st) = fst starter
      /\ fst starter
         = match import_fails sc, initialize_fails sc with
           | Some e, _ => inl e
           | None, Some e => inl e
           | None, None => inr (Some (engine_handle sc))
           end
      /\ initialize_calls (engine (snd starter))
         = match import_fails sc with
           | Some _ => initialize_calls (engine st)
           | None => S (initialize_calls (engine st))
           end)
  /\ (forall fam st p k,
      fst (instance_if_ready fam st) = inr None ->
      converterPromise (module_of fam st) = Some p ->
      run_actions (repeat (Calls fam) k) st = st).
Proof.
  split; [intros fam cb sc st h Hi Hr;
          exact (proj2 (ready_returns_immediately fam cb sc st h Hi Hr)) |].
  split; [exact in_flight_joins |].
  split; [exact resume_keeps_state |].
  split; [| split; [exact exec_keeps_instance |]; split; [exact exec_keeps_promise |]].
  - intros l st.
    destruct (run_actions_invariant l fresh fresh_invariant) as (Hperm & Hcalls & _).
    fold st in Hperm, Hcalls.
    pose proof (in_flight_at_most_one (presentation st)) as HP.
    pose proof (in_flight_at_most_one (document st)) as HD.
    pose proof (initialized_at_most_one (presentation st)) as HiP.
    pose proof (initialized_at_most_one (document st)) as HiD.
    split; [exact Hperm |].
    split; [exact HP |]. split; [exact HD |].
    split; [rewrite (Permutation_length Hperm), length_app; lia |].
    split; [exact Hcalls | lia].
  - split.
    { intros fam st. rewrite (surjective_pairing (getConverter_resume fam st)).
      rewrite resume_answer, resume_keeps_state. reflexivity. }
    split; [exact joins_pending_initialize |].
    split; [exact joins_pending_import |].
    split; [exact joiner_shares_outcome | exact joiners_leave_state].
Qed.

(** C9, witness: after a successful call the ready handle is returned with
    the state untouched; and when the initialization fails, a caller that
    joined it receives the failure the starting caller receives. *)
Lemma C9_witness_ready_handle_reused :
  let st := snd (process Presentation (engine_ok [] 1000 "%PDF")
                   (one_file (mkFile "deck.pptx" 2048 "" "")) true fresh) in
  let failing := mkScenario None 1%nat [] (Some (JsError "wasm load failed")) false
                            ConvNever false in
  (getConverter Presentation None (engine_ok [] 1000 "%PDF") st = (inr (Some 1%nat), st)
   /\ initialize_calls (engine st) = 1%nat)
  /\ (getConverter Presentation (Some relay) failing (exec (Calls Presentation) fresh)
      = getConverter Presentation None failing fresh
      /\ fst (getConverter Presentation None failing fresh)
         = inl (JsError "wasm load failed")
      /\ initialize_calls (engine (snd (getConverter Presentation None failing fresh)))
         = 1%nat).
Proof.
  intros st failing. split.
  - split.
    + apply (proj1 C9_one_converter_per_module Presentation None
               (engine_ok [] 1000 "%PDF") st 1%nat); reflexivity.
    + reflexivity.
  - destruct (proj1 (proj2 (proj2 (proj2 (proj2 (proj2 (proj2 (proj2 (proj2 (proj2
                C9_one_converter_per_module)))))))))
                Presentation (Some relay) failing fresh eq_refl eq_refl)
      as (_ & Hjoin & _ & _ & Hans & Hcalls).
    split; [exact Hjoin | split; [exact Hans | exact Hcalls]].
Defined.

(** C2: after an initialization that failed, the rejected promise stays in
    [converterPromise]: the caller that started it and a caller that
    awaited it both receive the failure, and a later call, made when the
    engine would initialize without error, receives the same failure again
    and starts nothing. *)
Theorem C2_failed_initialization_is_not_retried :
  let err := JsError "wasm load failed" in
  let failing := mkScenario None 1%nat [] (Some err) false ConvNever false in
  let healthy := engine_ok [] 1000 "%PDF" in
  let first := getConverter Presentation None failing fresh in
  let started := snd (getConverter_sync Presentation fresh) in
  let awaiting := getConverter Presentation None failing started in
  let later := getConverter Presentation None healthy (snd first) in
  fst first = inl err
  /\ fst awaiting = inl err
  /\ converterPromise (presentation (snd first)) = Some (Rejected err)
  /\ later = (inl err, snd first)
  /\ initialize_calls (engine (snd later)) = 1%nat
  /\ fst (process Presentation healthy (one_file (mkFile "deck.pptx" 2048 "" ""))
            true (snd first))
     = inr (Failure (mkError PROCESSING_FAILED "Failed to convert PowerPoint to PDF."
                       (Some "wasm load failed"))).
Proof.
  repeat split.
Qed.

(** * Further properties of the processors *)

(** X1: an input with no file, or with more than one, is answered with
    [INVALID_OPTIONS]; the detail states the number of files received; the
    provider and the engine are not touched and nothing is reported. *)
Theorem X1_wrong_file_count_rejected :
  forall (fam : Family) (sc : Scenario) (input : ProcessInput) (cb : bool) (st : State),
    length (files input) <> 1%nat ->
    process fam sc input cb st
    = (inr (Failure (mkError INVALID_OPTIONS (msg_one_file fam)
              (Some ("Received " ++ Js.string_of_N (N.of_nat (length (files input)))
                       ++ " file(s).")))),
       entered cb st).
Proof.
  intros fam sc input cb st Hlen. rewrite process_enters.
  destruct (files input) as [| f [| f' fs]]; try reflexivity.
  exfalso. apply Hlen. reflexivity.
Qed.

(** X1, witness: an empty input and a two-file input. *)
Lemma X1_witness_no_file_and_two_files :
  fst (process Presentation (engine_ok [] 1000 "%PDF") (mkInput []) true fresh)
  = inr (Failure (mkError INVALID_OPTIONS
           "Please provide exactly one PowerPoint presentation."
           (Some "Received 0 file(s).")))
  /\ fst (process Document (engine_ok [] 1000 "%PDF")
            (mkInput [mkFile "a.docx" 10 "" ""; mkFile "b.docx" 10 "" ""]) true fresh)
     = inr (Failure (mkError INVALID_OPTIONS "Please provide exactly one Word document."
              (Some "Received 2 file(s)."))).
Proof.
  split.
  - rewrite (X1_wrong_file_count_rejected Presentation (engine_ok [] 1000 "%PDF")
               (mkInput []) true fresh ltac:(discriminate)).
    reflexivity.
  - rewrite (X1_wrong_file_count_rejected Document (engine_ok [] 1000 "%PDF")
               (mkInput [mkFile "a.docx" 10 "" ""; mkFile "b.docx" 10 "" ""]) true fresh
               ltac:(discriminate)).
    reflexivity.
Defined.

Lemma process_null_converter_state (fam : Family) (sc : Scenario) (file : File)
    (cb : bool) (st : State) :
  Js.includes (validExts fam) (ext_of file) = true ->
  (size file <= MAX_FILE_SIZE)%N ->
  provider_result fam sc st = inr None ->
  cancel_while_loading sc = false ->
  process fam sc (one_file file) cb st
  = (inr (failed_output fam
            (JsError "Cannot read properties of null (reading 'convertToPdf')")),
     let w := provider_state fam sc st in
     mkState (mkProcessor 85 false cb None) (presentation w) (document w) (engine w)
             (delivered st
                ++ (if cb then
                      (5, msg_loading) :: map relay_report (own_reports fam sc st)
                        ++ [(85, msg_converting fam)]
                    else []))).
Proof.
  intros Hext Hsize Hprov Hcl. rewrite (process_valid_file fam sc file cb st Hext Hsize).
  unfold try_catch, process_try. unfold bind at 1.
  rewrite loading_phase_entered, Hprov.
  unfold loaded. rewrite Hprov, Hcl.
  unfold await_race, process_catch, failed_output.
  set (w := provider_state fam sc st). set (l := own_reports fam sc st).
  clearbody w l. destruct w as [wp wpm wdm we wd]. destruct st as [sp spm sdm se sd].
  destruct cb; run_monad; rewrite !clamp_85; rewrite <- ?app_assoc; reflexivity.
Qed.

(** How a call can end, with the fields of the processor it leaves. *)
Lemma process_exit (fam : Family) (sc : Scenario) (input : ProcessInput) (cb : bool)
    (st : State) :
  exists out,
    fst (process fam sc input cb st) = inr out
    /\ conversionProgressTimer (self (snd (process fam sc input cb st))) = None
    /\ onProgress (self (snd (process fam sc input cb st))) = cb.
Proof.
  destruct input as [fs].
  destruct fs as [| file [| f' fs]];
    try (rewrite process_enters; cbn [files]; eexists; repeat split; reflexivity).
  destruct (Js.includes (validExts fam) (ext_of file)) eqn:Hext;
    [| rewrite process_enters; cbn [files]; rewrite Hext; cbn [negb];
       eexists; repeat split; reflexivity].
  destruct (N.ltb MAX_FILE_SIZE (size file)) eqn:Hlt;
    [rewrite process_enters; cbn [files]; rewrite Hext, Hlt; cbn [negb];
     eexists; repeat split; reflexivity |].
  apply N.ltb_ge in Hlt.
  change (mkInput [file]) with (one_file file).
  destruct (provider_result fam sc st) as [e | conv] eqn:Hprov.
  { rewrite (process_provider_fails fam sc file cb st e Hext Hlt Hprov).
    eexists; repeat split; reflexivity. }
  destruct (cancel_while_loading sc) eqn:Hcl.
  { rewrite (process_cancelled_while_loading fam sc file cb st conv Hext Hlt Hprov Hcl).
    eexists; repeat split; reflexivity. }
  destruct conv as [h |].
  2:{ rewrite (process_null_converter_state fam sc file cb st Hext Hlt Hprov Hcl).
      eexists; repeat split; reflexivity. }
  destruct (process_converts fam sc file cb st h Hext Hlt Hprov Hcl)
    as (vs & _ & _ & Heq).
  rewrite Heq. cbv zeta. eexists; repeat split; reflexivity.
Qed.

(** X2: the promise returned by [process] is never rejected: whatever the
    input, the state and the environment, every failure is caught and
    returned as an output. *)
Theorem X2_process_never_rejects :
  forall (fam : Family) (sc : Scenario) (input : ProcessInput) (cb : bool) (st : State),
    exists out, fst (process fam sc input cb st) = inr out.
Proof.
  intros fam sc input cb st.
  destruct (process_exit fam sc input cb st) as (out & Hout & _).
  exists out. exact Hout.
Qed.

(** X3: on every exit path of [process] the interval of the ticker is
    cleared, so timer slots after the call change nothing and report
    nothing. *)
Theorem X3_interval_cleared_on_every_exit :
  forall (fam : Family) (sc : Scenario) (input : ProcessInput) (cb : bool) (st : State)
         (n : nat),
    let st' := snd (process fam sc input cb st) in
    conversionProgressTimer (self st') = None
    /\ repeat_M n tick st' = (inr tt, st').
Proof.
  intros fam sc input cb st n st'.
  destruct (process_exit fam sc input cb st) as (out & _ & Htimer & _).
  split; [exact Htimer | apply ticks_stopped; exact Htimer].
Qed.

Lemma process_forgets_processor (fam : Family) (sc : Scenario) (input : ProcessInput)
    (cb : bool) (st : State) (p : Processor) :
  process fam sc input cb (set_self p st) = process fam sc input cb st.
Proof.
  rewrite !process_enters.
  assert (He : entered cb (set_self p st) = entered cb st) by (destruct st; reflexivity).
  rewrite He. reflexivity.
Qed.

(** X4: [process] starts by resetting the processor, so its result and the
    state it leaves do not depend on the processor's earlier fields: a
    [cancel()] issued before the call, or an interval left running, is
    forgotten. *)
Theorem X4_prior_processor_state_is_forgotten :
  forall (fam : Family) (sc : Scenario) (input : ProcessInput) (cb : bool) (st : State)
         (p : Processor) (msg : string),
    process fam sc input cb (set_self p st) = process fam sc input cb st
    /\ process fam sc input cb (snd (cancel st)) = process fam sc input cb st
    /\ process fam sc input cb (snd (startConversionProgress msg st))
       = process fam sc input cb st.
Proof.
  intros fam sc input cb st p msg.
  split; [apply process_forgets_processor |].
  split.
  - unfold cancel, modify. cbn [snd]. apply process_forgets_processor.
  - rewrite !process_enters.
    assert (He : entered cb (snd (startConversionProgress msg st)) = entered cb st)
      by (destruct st as [[q c o [t |]] pm dm e d]; reflexivity).
    rewrite He. reflexivity.
Qed.

(** ** The ticker in closed form *)

Lemma clamp_integer_succ (a : nat) :
  (a < 98)%nat ->
  Qmin 100 (Qmax 0 (inject_Z (Z.of_nat a) + 1)) = inject_Z (Z.of_nat (a + 1)).
Proof.
  intro Ha.
  assert (Hplus : inject_Z (Z.of_nat a) + 1 = inject_Z (Z.of_nat (a + 1))).
  { unfold Qplus, inject_Z. cbn [Qnum Qden]. f_equal. lia. }
  rewrite Hplus.
  unfold Qmin, Qmax, GenericMinMax.gmin, GenericMinMax.gmax, Qcompare, inject_Z.
  cbn [Qnum Qden].
  assert (H0 : (0 * 1 ?= Z.of_nat (a + 1) * 1)%Z = Lt) by (apply Z.compare_lt_iff; lia).
  rewrite H0. cbn [Qnum Qden].
  assert (H100 : (100 * 1 ?= Z.of_nat (a + 1) * 1)%Z = Gt) by (apply Z.compare_gt_iff; lia).
  rewrite H100. reflexivity.
Qed.

Lemma below_98_integer (a : nat) :
  Qle_bool 98 (inject_Z (Z.of_nat a)) = (98 <=? a)%nat.
Proof.
  unfold Qle_bool, inject_Z. cbn [Qnum Qden].
  destruct (98 <=? a)%nat eqn:E.
  - apply Nat.leb_le in E. apply Z.leb_le. lia.
  - apply Nat.leb_gt in E. apply Z.leb_gt. lia.
Qed.

Lemma tick_reports_cons (a m : nat) (msg : string) :
  tick_reports a (S m) msg
  = (inject_Z (Z.of_nat (a + 1)), msg) :: tick_reports (a + 1) m msg.
Proof.
  unfold tick_reports. cbn [seq map]. f_equal.
  rewrite <- seq_shift, map_map. apply map_ext. intro k.
  replace (a + 1 + k)%nat with (a + S k)%nat by lia. reflexivity.
Qed.

(** The state after [n] firings of a live interval, from a whole-number
    progress value of at most 98. *)
Lemma ticks_closed_form :
  forall (n a : nat) (st : State) (msg : string),
    conversionProgressTimer (self st) = Some msg ->
    progress (self st) = inject_Z (Z.of_nat a) ->
    (a <= 98)%nat ->
    ticks n st
    = mkState (mkProcessor (inject_Z (Z.of_nat (a + Nat.min n (98 - a))))
                           (cancelled (self st)) (onProgress (self st)) (Some msg))
              (presentation st) (document st) (engine st)
              (delivered st
                 ++ (if onProgress (self st)
                     then tick_reports a (Nat.min n (98 - a)) msg else [])).
Proof.
  induction n as [| n IH]; intros a st msg Htimer Hprog Ha.
  - destruct st as [[q c o t] pm dm e d]. cbn in Htimer, Hprog. subst t q.
    unfold ticks. cbn [repeat_M ret snd self progress cancelled onProgress
      presentation document engine delivered Nat.min].
    rewrite Nat.add_0_r. unfold tick_reports. cbn [seq map].
    destruct o; rewrite app_nil_r; reflexivity.
  - rewrite ticks_succ.
    destruct st as [[q c o t] pm dm e d]. cbn in Htimer, Hprog. subst t q.
    unfold tick. run_monad. rewrite below_98_integer.
    destruct (98 <=? a)%nat eqn:E.
    + apply Nat.leb_le in E. assert (a = 98)%nat by lia. subst a.
      cbn [snd].
      rewrite (IH 98%nat (mkState (mkProcessor (inject_Z (Z.of_nat 98)) c o (Some msg))
                            pm dm e d) msg eq_refl eq_refl (le_n _)).
      cbn [self progress cancelled onProgress presentation document engine delivered].
      replace (Nat.min n (98 - 98)) with 0%nat by lia.
      replace (Nat.min (S n) (98 - 98)) with 0%nat by lia. reflexivity.
    + apply Nat.leb_gt in E.
      rewrite (clamp_integer_succ a E).
      assert (Hmin : Nat.min (S n) (98 - a) = S (Nat.min n (98 - (a + 1)))) by lia.
      rewrite Hmin, tick_reports_cons.
      destruct o; cbn [snd].
      * rewrite (IH (a + 1)%nat
                   (mkState (mkProcessor (inject_Z (Z.of_nat (a + 1))) c true (Some msg))
                            pm dm e (d ++ [(inject_Z (Z.of_nat (a + 1)), msg)]))
                   msg eq_refl eq_refl ltac:(lia)).
        cbn [self progress cancelled onProgress presentation document engine delivered].
        rewrite <- app_assoc. cbn [app].
        replace (a + 1 + Nat.min n (98 - (a + 1)))%nat
          with (a + S (Nat.min n (98 - (a + 1))))%nat by lia.
        reflexivity.
      * rewrite (IH (a + 1)%nat
                   (mkState (mkProcessor (inject_Z (Z.of_nat (a + 1))) c false (Some msg))
                            pm dm e d)
                   msg eq_refl eq_refl ltac:(lia)).
        cbn [self progress cancelled onProgress presentation document engine delivered].
        replace (a + 1 + Nat.min n (98 - (a + 1)))%nat
          with (a + S (Nat.min n (98 - (a + 1))))%nat by lia.
        reflexivity.
Qed.

(** X5: from a whole-number progress [a <= 98], [n] firings of the live
    interval raise the progress by one each until it is 98 and then stop:
    the progress is [a + min(n, 98 - a)], never above 98, exactly
    [min(n, 98 - a)] reports are delivered, and nothing else changes. *)
Theorem X5_ticker_counts_up_to_98 :
  forall (n a : nat) (st : State) (msg : string),
    conversionProgressTimer (self st) = Some msg ->
    progress (self st) = inject_Z (Z.of_nat a) ->
    (a <= 98)%nat ->
    let st' := ticks n st in
    progress (self st') = inject_Z (Z.of_nat (a + Nat.min n (98 - a)))
    /\ progress (self st') <= 98
    /\ delivered st'
       = (delivered st
            ++ (if onProgress (self st)
                then tick_reports a (Nat.min n (98 - a)) msg else []))%list
    /\ length (tick_reports a (Nat.min n (98 - a)) msg) = Nat.min n (98 - a)
    /\ cancelled (self st') = cancelled (self st)
    /\ conversionProgressTimer (self st') = Some msg
    /\ presentation st' = presentation st
    /\ document st' = document st
    /\ engine st' = engine st.
Proof.
  intros n a st msg Htimer Hprog Ha st'. unfold st'.
  rewrite (ticks_closed_form n a st msg Htimer Hprog Ha).
  cbn [self progress cancelled conversionProgressTimer presentation document engine
       delivered].
  split; [reflexivity |].
  split; [unfold Qle, inject_Z; cbn [Qnum Qden]; lia |].
  split; [reflexivity |].
  split; [unfold tick_reports; rewrite length_map, length_seq; reflexivity |].
  repeat split.
Qed.

(** X5, witness: twenty firings from 85. *)
Lemma X5_witness_twenty_ticks_from_85 :
  let st := mkState (mkProcessor 85 false true (Some "Converting")) (mkModule None None)
                    (mkModule None None) (mkEngine [] [] 0 []) [] in
  progress (self (ticks 20 st)) = 98
  /\ length (delivered (ticks 20 st)) = 13%nat.
Proof.
  intro st.
  destruct (X5_ticker_counts_up_to_98 20 85 st "Converting" eq_refl eq_refl
              ltac:(repeat constructor)) as (Hprog & _ & Hdel & _).
  split; [exact Hprog | rewrite Hdel; reflexivity].
Defined.

(** The run of [process] past the first checkpoint, with the ticker's
    reports spelled out. *)
Lemma process_converts_exactly (fam : Family) (sc : Scenario) (file : File) (cb : bool)
    (st : State) (h : Handle) :
  Js.includes (validExts fam) (ext_of file) = true ->
  (size file <= MAX_FILE_SIZE)%N ->
  provider_result fam sc st = inr (Some h) ->
  cancel_while_loading sc = false ->
  process fam sc (one_file file) cb st
  = let w := provider_state fam sc st in
    let e := engine w in
    let relayed := map relay_report (own_reports fam sc st) in
    let ticked := tick_reports 85 (ticks_during sc) (msg_converting fam) in
    let succeeds :=
      match snd (race (convert_outcome sc)) with
      | inr _ => negb (cancel_while_converting sc)
      | inl _ => false
      end in
    (inr (match snd (race (convert_outcome sc)) with
          | inl err => failed_output fam err
          | inr pdf =>
              if cancel_while_converting sc then cancelled_output
              else Success pdf (baseName fam file ++ ".pdf") [("format", "pdf")]
          end),
     mkState (mkProcessor (if succeeds then 100
                           else inject_Z (Z.of_nat (85 + ticks_during sc)))
                          (cancel_while_converting sc) cb None)
             (presentation w) (document w)
             (mkEngine (ready e) (initializing e) (initialize_calls e)
                       (convertToPdf_calls e ++ [(h, name file)]))
             (delivered st
                ++ (if cb then
                      (5, msg_loading) :: relayed
                        ++ (85, msg_converting fam) :: ticked
                        ++ (if succeeds then [(100, "Conversion complete!")] else [])
                    else []))).
Proof.
  intros Hext Hsize Hprov Hcl. rewrite (process_valid_file fam sc file cb st Hext Hsize).
  unfold try_catch, process_try. unfold bind at 1.
  rewrite loading_phase_entered, Hprov.
  unfold loaded. rewrite Hprov, Hcl.
  unfold await_race, process_catch, cancelled_output, failed_output, ticks_during.
  set (w := provider_state fam sc st).
  set (l := own_reports fam sc st).
  clearbody w l. clear Hprov Hcl.
  destruct sc as [imp h0 reps ini cl co cc].
  cbn [convert_outcome cancel_while_converting].
  set (n := N.to_nat (N.pred (fst (race co)) / TICK_MS)).
  set (outcome := snd (race co)).
  clearbody n outcome.
  destruct w as [wp wpm wdm [wr wi wc wt] wd].
  destruct st as [sp spm sdm se sd].
  destruct cb.
  all: run_monad; rewrite !clamp_85.
  all: match goal with
  | |- context [repeat_M ?k tick ?s] =>
      rewrite (repeat_tick_returns k s);
      rewrite (ticks_closed_form k 85 s (msg_converting fam) eq_refl eq_refl
                 ltac:(repeat constructor))
  end.
  all: cbn [self progress cancelled onProgress presentation document engine delivered].
  all: change (98 - 85)%nat with 13%nat.
  all: destruct cc; destruct outcome as [err | pdf].
  all: run_monad; rewrite ?clamp_100.
  all: cbn [negb]; rewrite <- ?app_assoc; cbn [app]; rewrite ?app_nil_r.
  all: reflexivity.
Qed.

Lemma race_settles_in_time (o : ConvOutcome) :
  settles_in_time o = true ->
  exists t, fst (race o) = t /\ (t <= CONVERT_TIMEOUT_MS)%N
            /\ match o with
               | ConvResolves t' pdf => t = t' /\ snd (race o) = inr pdf
               | ConvRejects t' e => t = t' /\ snd (race o) = inl e
               | ConvNever => False
               end.
Proof.
  destruct o as [t pdf | t e |]; cbn [settles_in_time race]; intro H;
    try discriminate H; rewrite H; exists t; cbn [fst snd];
    (split; [reflexivity | split; [apply N.leb_le; exact H | split; reflexivity]]).
Qed.




Lemma no_completion_report (l : list (Q * string)) (n : nat) (a b c : string) :
  (n <= 13)%nat ->
  ~ In 100 (map fst ((5, a) :: map relay_report l ++ (85, b) :: tick_reports 85 n c)).
Proof.
  intros Hn Hin. apply in_map_iff in Hin. destruct Hin as ([v m] & Hv & Hin).
  cbn [fst] in Hv. subst v.
  destruct Hin as [H5 | Hin]; [discriminate H5 |].
  apply in_app_or in Hin. destruct Hin as [Hin | [H85 | Hin]].
  - apply in_map_iff in Hin. destruct Hin as (x & Hx & _).
    unfold relay_report in Hx. injection Hx as Hx _.
    pose proof (relay_value_le_80 (fst x)) as Hle. rewrite Hx in Hle.
    apply Hle. reflexivity.
  - discriminate H85.
  - unfold tick_reports in Hin. apply in_map_iff in Hin.
    destruct Hin as (k & Hk & Hseq). apply in_seq in Hseq.
    apply (f_equal (fun d : Q * string => Qnum (fst d))) in Hk.
    unfold inject_Z in Hk. cbn [fst Qnum] in Hk. lia.
Qed.

Lemma ticks_during_at_most_13 (sc : Scenario) : (ticks_during sc <= 13)%nat.
Proof. unfold ticks_during. apply Nat.le_min_r. Qed.

Lemma progress_after_ticks_at_most_98 (n : nat) :
  (n <= 13)%nat -> inject_Z (Z.of_nat (85 + n)) <= 98.
Proof.
  intro Hn. unfold Qle, inject_Z. cbn [Qnum Qden]. lia.
Qed.

(** X7: when the engine's conversion rejects before the timer fires, the
    call ends with [PROCESSING_FAILED]; the detail is the message of the
    thrown [Error], or ['Unknown error'] for any other thrown value;
    [convertToPdf] was invoked once; no 100% is reported and the progress
    stays at most 98. *)
Theorem X7_engine_conversion_failure :
  forall (fam : Family) (sc : Scenario) (file : File) (cb : bool) (st : State)
         (h : Handle) (t : N) (e : Thrown),
    Js.includes (validExts fam) (ext_of file) = true ->
    (size file <= MAX_FILE_SIZE)%N ->
    provider_result fam sc st = inr (Some h) ->
    cancel_while_loading sc = false ->
    convert_outcome sc = ConvRejects t e ->
    (t <= CONVERT_TIMEOUT_MS)%N ->
    let r := process fam sc (one_file file) cb st in
    fst r = inr (Failure (mkError PROCESSING_FAILED (msg_failed fam)
                   (Some (match e with
                          | JsError m => m
                          | NonError => "Unknown error"
                          end))))
    /\ convertToPdf_calls (engine (snd r))
       = (convertToPdf_calls (engine st) ++ [(h, name file)])%list
    /\ ~ In 100 (map fst (reported st r))
    /\ progress (self (snd r)) <= 98.
Proof.
  intros fam sc file cb st h t e Hext Hsize Hprov Hcl Hout Ht r.
  pose proof (process_converts_exactly fam sc file cb st h Hext Hsize Hprov Hcl) as Heq.
  cbv zeta in Heq. fold r in Heq.
  assert (Hrace : race (convert_outcome sc) = (t, inl e)).
  { rewrite Hout. cbn [race]. apply N.leb_le in Ht. rewrite Ht. reflexivity. }
  rewrite Hrace in Heq. cbn [snd] in Heq.
  pose proof (ticks_during_at_most_13 sc) as Hn.
  clearbody r. subst r. clear Hrace Hout Ht Hprov Hcl Hext Hsize.
  split; [reflexivity |].
  split; [cbn [fst snd engine convertToPdf_calls];
          rewrite provider_keeps_conversions; reflexivity |].
  split.
  - unfold reported. cbn [snd delivered]. rewrite skipn_length_app.
    destruct cb; [| intros []].
    rewrite app_nil_r. apply no_completion_report. exact Hn.
  - cbn [snd self progress]. apply progress_after_ticks_at_most_98. exact Hn.
Qed.

(** X7, witness: the engine throws after 1.7 seconds. *)
Lemma X7_witness_engine_throws :
  let sc := mkScenario None 1%nat [] None false
                       (ConvRejects 1700 (JsError "corrupt archive")) false in
  fst (process Document sc (one_file (mkFile "a.docx" 2048 "" "")) true fresh)
  = inr (Failure (mkError PROCESSING_FAILED "Failed to convert Word document to PDF."
           (Some "corrupt archive"))).
Proof.
  intro sc.
  exact (proj1 (X7_engine_conversion_failure Document sc (mkFile "a.docx" 2048 "" "")
                  true fresh 1%nat 1700%N (JsError "corrupt archive")
                  eq_refl ltac:(discriminate) eq_refl eq_refl eq_refl
                  ltac:(discriminate))).
Defined.

(** ** Failing initialization *)

Lemma provider_first_initialization (fam : Family) (sc : Scenario) (st : State) :
  converterPromise (module_of fam st) = None ->
  converterInstance (module_of fam st) = None ->
  provider_result fam sc st
  = match import_fails sc, initialize_fails sc with
    | Some e, _ => inl e
    | None, Some e => inl e
    | None, None => inr (Some (engine_handle sc))
    end
  /\ converterPromise (module_of fam (provider_state fam sc st))
     = Some (match import_fails sc, initialize_fails sc with
             | Some e, _ => Rejected e
             | None, Some e => Rejected e
             | None, None => Fulfilled
             end)
  /\ initialize_calls (engine (provider_state fam sc st))
     = (match import_fails sc with
        | Some _ => initialize_calls (engine st)
        | None => S (initialize_calls (engine st))
        end).
Proof.
  intros Hp Hi.
  unfold provider_result, provider_state, getConverter, getConverter_sync,
    instance_if_ready, closure, closure_import, closure_initialize, getConverter_resume.
  destruct sc as [[imp |] h0 reps [ini |] cl co cc];
    destruct st as [sp [pp pi] [dp di] [er ei ec et] sd]; destruct fam;
    cbn in Hp, Hi; subst; run_provider; repeat split.
Qed.

(** X8: when the initialization this call starts is rejected by the
    engine, the call ends with [PROCESSING_FAILED] carrying the engine's
    message as detail; the callback has received the 5% report and the
    relayed engine reports only; [convertToPdf] is not invoked; the module's
    promise is left rejected and [initialize] was called once. *)
Theorem X8_failed_initialization_fails_the_call :
  forall (fam : Family) (sc : Scenario) (file : File) (st : State) (e : Thrown),
    Js.includes (validExts fam) (ext_of file) = true ->
    (size file <= MAX_FILE_SIZE)%N ->
    converterPromise (module_of fam st) = None ->
    converterInstance (module_of fam st) = None ->
    import_fails sc = None ->
    initialize_fails sc = Some e ->
    let r := process fam sc (one_file file) true st in
    fst r = inr (Failure (mkError PROCESSING_FAILED (msg_failed fam)
                           (Some (error_message e))))
    /\ reported st r = (5, msg_loading) :: map relay_report (init_reports sc)
    /\ convertToPdf_calls (engine (snd r)) = convertToPdf_calls (engine st)
    /\ converterPromise (module_of fam (snd r)) = Some (Rejected e)
    /\ initialize_calls (engine (snd r)) = S (initialize_calls (engine st)).
Proof.
  intros fam sc file st e Hext Hsize Hp Hi Himp Hini r.
  destruct (provider_first_initialization fam sc st Hp Hi) as (Hres & Hprom & Hcalls).
  rewrite Himp, Hini in Hres, Hprom. rewrite Himp in Hcalls.
  unfold r. rewrite (process_provider_fails fam sc file true st e Hext Hsize Hres).
  cbn [fst snd]. split; [reflexivity |].
  split.
  { unfold reported, loaded. cbn [snd delivered]. rewrite skipn_length_app.
    rewrite (own_reports_when_starting fam sc st Hp Hi Himp). reflexivity. }
  split; [unfold loaded; cbn [engine]; apply provider_keeps_conversions |].
  split.
  - unfold loaded. destruct fam; exact Hprom.
  - unfold loaded. cbn [engine]. exact Hcalls.
Qed.

(** X8, witness: the engine fails to load. *)
Lemma X8_witness_wasm_load_fails :
  let sc := mkScenario None 1%nat [(10, "Downloading")] (Some (JsError "wasm load failed"))
                       false (ConvResolves 1000 "%PDF") false in
  let r := process Presentation sc (one_file (mkFile "deck.pptx" 2048 "" "")) true fresh in
  fst r = inr (Failure (mkError PROCESSING_FAILED "Failed to convert PowerPoint to PDF."
                 (Some "wasm load failed")))
  /\ convertToPdf_calls (engine (snd r)) = [].
Proof.
  intros sc r.
  destruct (X8_failed_initialization_fails_the_call Presentation sc
              (mkFile "deck.pptx" 2048 "" "") fresh (JsError "wasm load failed")
              eq_refl ltac:(discriminate) eq_refl eq_refl eq_refl eq_refl)
    as (Hout & _ & Hconv & _).
  split; [exact Hout | exact Hconv].
Defined.

(** ** When a call succeeds *)

(** X9: a call succeeds exactly when there is one file with a whitelisted
    extension and at most 52,428,800 bytes, the provider answers with a
    handle, no [cancel()] arrives while the call is suspended, and the
    conversion resolves within 300,000 ms; the output then carries the
    engine's PDF, the derived file name and the [format] metadata. *)
Theorem X9_success_exactly_when :
  forall (fam : Family) (sc : Scenario) (input : ProcessInput) (cb : bool) (st : State)
         (pdf : Blob) (fname : string) (meta : list (string * string)),
    fst (process fam sc input cb st) = inr (Success pdf fname meta)
    <-> exists file h,
          files input = [file]
          /\ Js.includes (validExts fam) (ext_of file) = true
          /\ (size file <= 52428800)%N
          /\ provider_result fam sc st = inr (Some h)
          /\ cancel_while_loading sc = false
          /\ (exists t, convert_outcome sc = ConvResolves t pdf /\ (t <= 300000)%N)
          /\ cancel_while_converting sc = false
          /\ fname = baseName fam file ++ ".pdf"
          /\ meta = [("format", "pdf")].
Proof.
  intros fam sc input cb st pdf fname meta. split.
  - intro Hrun.
    destruct (success_inversion fam sc input cb st pdf fname meta Hrun)
      as (file & h & Hin & Hext & Hsize & Hprov & Hcl & Hrace & Hcc).
    subst input. exists file, h.
    destruct (process_converts fam sc file cb st h Hext Hsize Hprov Hcl)
      as (vs & _ & _ & Heq).
    rewrite Heq in Hrun. cbv zeta in Hrun. rewrite Hrace, Hcc in Hrun.
    cbn [fst] in Hrun. injection Hrun as Hname Hmeta.
    repeat (split; [first [reflexivity | assumption | symmetry; assumption] |]).
    split.
    + destruct (convert_outcome sc) as [t pdf' | t e' |] eqn:Hout; cbn [race] in Hrace.
      * destruct (t <=? CONVERT_TIMEOUT_MS)%N eqn:Ht; cbn [snd] in Hrace;
          [| discriminate Hrace].
        injection Hrace as ->. exists t. split; [reflexivity |].
        apply N.leb_le in Ht. exact Ht.
      * destruct (t <=? CONVERT_TIMEOUT_MS)%N; discriminate Hrace.
      * discriminate Hrace.
    + repeat split; first [assumption | symmetry; assumption].
  - intros (file & h & Hfiles & Hext & Hsize & Hprov & Hcl & (t & Hout & Ht) & Hcc
            & Hname & Hmeta).
    destruct input as [fs]. cbn [files] in Hfiles. subst fs.
    change (mkInput [file]) with (one_file file).
    destruct (process_converts fam sc file cb st h Hext Hsize Hprov Hcl)
      as (vs & _ & _ & Heq).
    rewrite Heq. cbv zeta. rewrite Hout. cbn [race].
    apply N.leb_le in Ht. change 300000%N with CONVERT_TIMEOUT_MS in Ht. rewrite Ht.
    cbn [fst snd]. rewrite Hcc. subst fname meta. reflexivity.
Qed.

(** ** The callback is optional *)

Lemma process_states_without_callback (fam : Family) (sc : Scenario)
    (input : ProcessInput) (st : State) :
  let quiet := process fam sc input false st in
  let loud := process fam sc input true st in
  fst quiet = fst loud
  /\ delivered (snd quiet) = delivered st
  /\ presentation (snd quiet) = presentation (snd loud)
  /\ document (snd quiet) = document (snd loud)
  /\ engine (snd quiet) = engine (snd loud)
  /\ cancelled (self (snd quiet)) = cancelled (self (snd loud)).
Proof.
  cbv zeta. destruct input as [fs].
  destruct fs as [| file [| f' fs]];
    try (rewrite !process_enters; cbn [files]; repeat split; destruct st; reflexivity).
  destruct (Js.includes (validExts fam) (ext_of file)) eqn:Hext;
    [| rewrite !process_enters; cbn [files]; rewrite Hext; cbn [negb];
       repeat split; destruct st; reflexivity].
  destruct (N.ltb MAX_FILE_SIZE (size file)) eqn:Hlt;
    [rewrite !process_enters; cbn [files]; rewrite Hext, Hlt; cbn [negb];
     repeat split; destruct st; reflexivity |].
  apply N.ltb_ge in Hlt.
  change (mkInput [file]) with (one_file file).
  destruct (provider_result fam sc st) as [e | conv] eqn:Hprov.
  { rewrite !(process_provider_fails fam sc file _ st e Hext Hlt Hprov).
    unfold loaded. cbn [fst snd self delivered presentation document engine cancelled].
    rewrite app_nil_r. repeat split. }
  destruct (cancel_while_loading sc) eqn:Hcl.
  { rewrite !(process_cancelled_while_loading fam sc file _ st conv Hext Hlt Hprov Hcl).
    unfold loaded. cbn [fst snd self delivered presentation document engine cancelled].
    rewrite app_nil_r. repeat split. }
  destruct conv as [h |].
  2:{ rewrite !(process_null_converter_state fam sc file _ st Hext Hlt Hprov Hcl).
      cbv zeta. cbn [fst snd self delivered presentation document engine cancelled].
      rewrite app_nil_r. repeat split. }
  rewrite !(process_converts_exactly fam sc file _ st h Hext Hlt Hprov Hcl).
  cbv zeta. cbn [fst snd self delivered presentation document engine cancelled].
  rewrite app_nil_r. repeat split.
Qed.

(** X10: the progress callback is optional and has no influence: without
    it nothing is reported, and the output, the engine and both modules end
    up as with it. *)
Theorem X10_callback_does_not_change_the_outcome :
  forall (fam : Family) (sc : Scenario) (input : ProcessInput) (st : State),
    fst (process fam sc input false st) = fst (process fam sc input true st)
    /\ reported st (process fam sc input false st) = []
    /\ engine (snd (process fam sc input false st))
       = engine (snd (process fam sc input true st))
    /\ module_of Presentation (snd (process fam sc input false st))
       = module_of Presentation (snd (process fam sc input true st))
    /\ module_of Document (snd (process fam sc input false st))
       = module_of Document (snd (process fam sc input true st)).
Proof.
  intros fam sc input st.
  destruct (process_states_without_callback fam sc input st)
    as (Hout & Hdel & Hp & Hd & He & _).
  split; [exact Hout |].
  split; [unfold reported; rewrite Hdel; apply skipn_all |].
  split; [exact He | split; [exact Hp | exact Hd]].
Qed.

(** ** The two modules, and repeated calls *)

Lemma provider_keeps_other_module (fam : Family) (sc : Scenario) (st : State) :
  module_of (other fam) (provider_state fam sc st) = module_of (other fam) st.
Proof.
  provider_cases fam sc st.
  all: reflexivity.
Qed.

Lemma isReady_head (er ei : list Handle) (ec : nat) (et : list (Handle * string))
    (h : Handle) :
  isReady (mkEngine (h :: er) ei ec et) h = true.
Proof.
  unfold isReady. cbn [ready existsb]. rewrite Nat.eqb_refl. reflexivity.
Qed.

(** Once the provider has answered with a handle, it answers every later
    call with that handle, changes nothing, and relays nothing. *)
Lemma provider_answer_is_stable (fam : Family) (sc sc' : Scenario) (st : State)
    (answer : Handle) :
  provider_result fam sc st = inr (Some answer) ->
  provider_result fam sc' (provider_state fam sc st) = inr (Some answer)
  /\ provider_state fam sc' (provider_state fam sc st) = provider_state fam sc st
  /\ own_reports fam sc' (provider_state fam sc st) = [].
Proof.
  destruct sc' as [imp' h0' reps' ini' cl' co' cc'].
  provider_cases fam sc st.
  all: intro Hres; try discriminate Hres.
  all: rewrite ?isReady_head, ?Hready; run_provider.
  all: try (injection Hres as <-).
  all: repeat split; reflexivity.
Qed.

Lemma relay_all_nil (st : State) : relay_all [] st = st.
Proof.
  destruct st as [[q c o t] pm dm e d]. unfold relay_all.
  cbn [self progress cancelled onProgress conversionProgressTimer presentation document
       engine delivered map last].
  destruct o; rewrite app_nil_r; reflexivity.
Qed.

(** The provider reads nothing of the engine but the ready handles, and
    leaves the record of conversions alone. *)
Lemma provider_ignores_conversions (fam : Family) (sc : Scenario) (st : State)
    (p : Processor) (d : list (Q * string)) (t : list (Handle * string)) :
  let e := engine st in
  let st' := mkState p (presentation st) (document st)
                     (mkEngine (ready e) (initializing e) (initialize_calls e) t) d in
  let w := provider_state fam sc st in
  provider_result fam sc st' = provider_result fam sc st
  /\ own_reports fam sc st' = own_reports fam sc st
  /\ provider_state fam sc st'
     = mkState p (presentation w) (document w)
               (mkEngine (ready (engine w)) (initializing (engine w))
                         (initialize_calls (engine w)) t) d.
Proof.
  destruct st as [sp spm sdm [er ei ec et] sd].
  cbn [engine ready initializing initialize_calls presentation document].
  unfold provider_result, provider_state, own_reports, getConverter, getConverter_sync,
    instance_if_ready, in_flight_settles, closure, closure_import, closure_initialize,
    getConverter_resume.
  destruct sc as [[imp |] h0 reps [ini |] cl co cc].
  all: destruct fam;
    [ destruct spm as [[[| | r] |] [h |]] | destruct sdm as [[[| | r] |] [h |]] ].
  all: try (assert (Hsame : isReady (mkEngine er ei ec t) h = isReady (mkEngine er ei ec et) h)
              by reflexivity;
            destruct (isReady (mkEngine er ei ec et) h) eqn:Hready).
  all: run_provider; rewrite ?Hsame, ?Hready; run_provider.
  all: repeat split; reflexivity.
Qed.

(** X11: the two modules are independent: neither [process] nor
    [getConverter] of one module ever changes the [converterPromise] or
    [converterInstance] of the other. *)
Theorem X11_modules_do_not_touch_each_other :
  forall (fam : Family) (sc : Scenario) (input : ProcessInput) (cb : bool) (st : State),
    module_of (other fam) (snd (process fam sc input cb st)) = module_of (other fam) st
    /\ module_of (other fam) (snd (getConverter fam (Some relay) sc st))
       = module_of (other fam) st
    /\ module_of (other fam) (snd (getConverter fam None sc st))
       = module_of (other fam) st.
Proof.
  intros fam sc input cb st.
  pose proof (provider_keeps_other_module fam sc st) as Hother.
  assert (Hw : module_of (other fam)
                 (mkState (self st) (presentation (provider_state fam sc st))
                          (document (provider_state fam sc st)) (engine st) (delivered st))
               = module_of (other fam) st)
    by (destruct fam; exact Hother).
  split; [| split; [| exact Hother]].
  - destruct input as [fs].
    destruct fs as [| file [| f' fs]];
      try (rewrite process_enters; cbn [files]; destruct fam; reflexivity).
    destruct (Js.includes (validExts fam) (ext_of file)) eqn:Hext;
      [| rewrite process_enters; cbn [files]; rewrite Hext; cbn [negb];
         destruct fam; reflexivity].
    destruct (N.ltb MAX_FILE_SIZE (size file)) eqn:Hlt;
      [rewrite process_enters; cbn [files]; rewrite Hext, Hlt; cbn [negb];
       destruct fam; reflexivity |].
    apply N.ltb_ge in Hlt.
    change (mkInput [file]) with (one_file file).
    destruct (provider_result fam sc st) as [e | conv] eqn:Hprov.
    { rewrite (process_provider_fails fam sc file cb st e Hext Hlt Hprov).
      destruct fam; exact Hw. }
    destruct (cancel_while_loading sc) eqn:Hcl.
    { rewrite (process_cancelled_while_loading fam sc file cb st conv Hext Hlt Hprov Hcl).
      destruct fam; exact Hw. }
    destruct conv as [h |].
    2:{ rewrite (process_null_converter_state fam sc file cb st Hext Hlt Hprov Hcl).
        destruct fam; exact Hw. }
    rewrite (process_converts_exactly fam sc file cb st h Hext Hlt Hprov Hcl).
    destruct fam; exact Hw.
  - rewrite getConverter_relay. cbn [snd]. unfold relay_all.
    destruct fam; exact Hother.
Qed.

(** X12: once [getConverter] has answered with a handle, every later call
    of the same module, with or without a callback and whatever the engine
    would do, answers with that handle and changes nothing; in particular
    [initialize] is not called again. *)
Theorem X12_answered_provider_is_stable :
  forall (fam : Family) (sc sc' : Scenario) (st : State) (answer : Handle),
    fst (getConverter fam None sc st) = inr (Some answer) ->
    let st' := snd (getConverter fam None sc st) in
    getConverter fam None sc' st' = (inr (Some answer), st')
    /\ getConverter fam (Some relay) sc' st' = (inr (Some answer), st')
    /\ initialize_calls (engine (snd (getConverter fam (Some relay) sc' st')))
       = initialize_calls (engine st').
Proof.
  intros fam sc sc' st answer Hres st'.
  destruct (provider_answer_is_stable fam sc sc' st answer Hres) as (Hr & Hs & Ho).
  fold (provider_state fam sc st) in st'. fold st' in Hr, Hs, Ho.
  assert (Hnone : getConverter fam None sc' st' = (inr (Some answer), st')).
  { rewrite (surjective_pairing (getConverter fam None sc' st')).
    fold (provider_result fam sc' st'). fold (provider_state fam sc' st').
    rewrite Hr, Hs. reflexivity. }
  assert (Hrelay : getConverter fam (Some relay) sc' st' = (inr (Some answer), st')).
  { rewrite getConverter_relay, Hr, Hs, Ho, relay_all_nil. reflexivity. }
  split; [exact Hnone | split; [exact Hrelay |]].
  rewrite Hrelay. reflexivity.
Qed.

(** X12, witness: a second provider call while the network is down. *)
Lemma X12_witness_second_provider_call :
  let first := getConverter Document None (engine_ok [(30, "Loading")] 1000 "%PDF") fresh in
  getConverter Document (Some relay)
               (mkScenario (Some (JsError "offline")) 2%nat [] None false ConvNever false)
               (snd first)
  = (inr (Some 1%nat), snd first).
Proof.
  intro first.
  exact (proj1 (proj2 (X12_answered_provider_is_stable Document
                         (engine_ok [(30, "Loading")] 1000 "%PDF")
                         (mkScenario (Some (JsError "offline")) 2%nat [] None false
                                     ConvNever false)
                         fresh 1%nat eq_refl))).
Defined.

(** X13: after a successful call, a second call on the same input whose
    conversion resolves in time and which is not cancelled succeeds with the
    same output file name; it does not call [initialize], leaves the
    module's variables as they are, and reports 5, 85, the ticker values and
    100 with no engine report in between. *)
Theorem X13_second_call_reuses_the_converter :
  forall (fam : Family) (sc sc' : Scenario) (input : ProcessInput) (cb cb' : bool)
         (st : State) (pdf pdf' : Blob) (fname : string) (meta : list (string * string))
         (t : N),
    fst (process fam sc input cb st) = inr (Success pdf fname meta) ->
    cancel_while_loading sc' = false ->
    cancel_while_converting sc' = false ->
    convert_outcome sc' = ConvResolves t pdf' ->
    (t <= CONVERT_TIMEOUT_MS)%N ->
    let st1 := snd (process fam sc input cb st) in
    let again := process fam sc' input cb' st1 in
    fst again = inr (Success pdf' fname meta)
    /\ initialize_calls (engine (snd again)) = initialize_calls (engine st1)
    /\ module_of fam (snd again) = module_of fam st1
    /\ (cb' = true ->
        exists n, (n <= 13)%nat
          /\ reported st1 again
             = ((5, msg_loading) :: (85, msg_converting fam)
                  :: tick_reports 85 n (msg_converting fam)
                  ++ [(100, "Conversion complete!")])%list).
Proof.
  intros fam sc sc' input cb cb' st pdf pdf' fname meta t Hrun Hcl' Hcc' Hout' Ht st1 again.
  destruct (success_inversion fam sc input cb st pdf fname meta Hrun)
    as (file & h & Hin & Hext & Hsize & Hprov & Hcl & Hrace & Hcc).
  subst input.
  pose proof (process_converts_exactly fam sc file cb st h Hext Hsize Hprov Hcl) as Heq.
  cbv zeta in Heq. rewrite Hrace, Hcc in Heq. cbn [negb] in Heq.
  rewrite Heq in Hrun. cbn [fst] in Hrun. injection Hrun as Hname Hmeta.
  set (w := provider_state fam sc st) in *.
  destruct (provider_answer_is_stable fam sc sc' st h Hprov) as (Hr & Hs & Ho).
  fold w in Hr, Hs, Ho.
  assert (Hst1 : st1 = mkState (self st1) (presentation w) (document w)
                         (mkEngine (ready (engine w)) (initializing (engine w))
                                   (initialize_calls (engine w))
                                   (convertToPdf_calls (engine st1)))
                         (delivered st1))
    by (unfold st1; rewrite Heq; reflexivity).
  destruct (provider_ignores_conversions fam sc' w (self st1) (delivered st1)
              (convertToPdf_calls (engine st1))) as (Hr1 & Ho1 & Hs1).
  cbv zeta in Hr1, Ho1, Hs1. rewrite <- Hst1 in Hr1, Ho1, Hs1.
  rewrite Hr in Hr1. rewrite Ho in Ho1. rewrite Hs in Hs1. rewrite <- Hst1 in Hs1.
  pose proof (process_converts_exactly fam sc' file cb' st1 h Hext Hsize Hr1 Hcl') as Heq'.
  cbv zeta in Heq'. fold again in Heq'.
  assert (Hrace' : race (convert_outcome sc') = (t, inr pdf')).
  { rewrite Hout'. cbn [race]. apply N.leb_le in Ht. rewrite Ht. reflexivity. }
  rewrite Hrace', Hcc', Ho1, Hs1 in Heq'. cbn [snd negb map app] in Heq'.
  pose proof (ticks_during_at_most_13 sc') as Hn.
  clearbody again. subst again.
  cbn [fst snd engine initialize_calls].
  split; [rewrite <- Hname, <- Hmeta; reflexivity |].
  split; [reflexivity |].
  split; [destruct fam; reflexivity |].
  intros ->. exists (ticks_during sc'). split; [exact Hn |].
  unfold reported. cbn [snd delivered]. apply skipn_length_app.
Qed.

(** X13, witness: the same deck converted twice. *)
Lemma X13_witness_same_file_twice :
  let file := mkFile "deck.pptx" 2048 "" "" in
  let first := process Presentation (engine_ok [(40, "Loading")] 1000 "%PDF")
                       (one_file file) true fresh in
  fst (process Presentation (engine_ok [(40, "Loading")] 2000 "%PDF2")
               (one_file file) true (snd first))
  = inr (Success "%PDF2" "deck.pdf" [("format", "pdf")])
  /\ initialize_calls
       (engine (snd (process Presentation (engine_ok [(40, "Loading")] 2000 "%PDF2")
                             (one_file file) true (snd first)))) = 1%nat.
Proof.
  intros file first.
  destruct (X13_second_call_reuses_the_converter Presentation
              (engine_ok [(40, "Loading")] 1000 "%PDF")
              (engine_ok [(40, "Loading")] 2000 "%PDF2")
              (one_file file) true true fresh "%PDF" "%PDF2" "deck.pdf"
              [("format", "pdf")] 2000%N
              eq_refl eq_refl eq_refl eq_refl ltac:(discriminate))
    as (Hout & Hcalls & _).
  split; [exact Hout | exact Hcalls].
Defined.

(** ** Joining an initialization *)

Lemma own_reports_when_joining (fam : Family) (sc : Scenario) (st : State) :
  converterPromise (module_of fam st) <> None ->
  own_reports fam sc st = [].
Proof.
  intro Hp. unfold own_reports, getConverter_sync, instance_if_ready.
  destruct st as [sp [pp pi] [dp di] se sd]; destruct fam; cbn in Hp;
    [destruct pp as [p |]; [| exfalso; apply Hp; reflexivity]; destruct pi as [h |]
    |destruct dp as [p |]; [| exfalso; apply Hp; reflexivity]; destruct di as [h |]];
    run_monad; cbn [fst];
    try match goal with |- context [isReady ?e ?h] => destruct (isReady e h) end;
    reflexivity.
Qed.

(** X14: a call that finds the module's promise already set (an
    initialization in flight or finished) relays no engine report: on
    success the reported values are 5, 85, ticker values between 85 and 100,
    and 100, a non-decreasing sequence whatever the engine reports. *)
Theorem X14_joining_call_reports_no_engine_progress :
  forall (fam : Family) (sc : Scenario) (input : ProcessInput) (st : State)
         (pdf : Blob) (fname : string) (meta : list (string * string)),
    converterPromise (module_of fam st) <> None ->
    fst (process fam sc input true st) = inr (Success pdf fname meta) ->
    let vs := map fst (reported st (process fam sc input true st)) in
    (exists ts, vs = (5 :: 85 :: ts ++ [100])%list
                /\ Forall (fun v => 85 <= v /\ v <= 100) ts)
    /\ nondecreasing vs.
Proof.
  intros fam sc input st pdf fname meta Hp Hrun vs.
  destruct (success_reported fam sc input st pdf fname meta Hrun)
    as (ts & Hchain & Hall & Heq).
  rewrite (own_reports_when_joining fam sc st Hp) in Heq. cbn [map app] in Heq.
  assert (Hvs : vs = (5 :: 85 :: ts ++ [100])%list).
  { unfold vs. rewrite Heq. cbn [map fst]. rewrite map_app, map_map. cbn [map fst].
    rewrite map_id. reflexivity. }
  assert (Hlow : forall q l, chain q l -> Forall (fun v => q <= v) l).
  { intros q l. revert q. induction l as [| v l IH]; intros q Hc; [constructor |].
    destruct Hc as [Hv Hc]. constructor; [exact Hv |].
    apply Forall_impl with (P := fun x => v <= x); [| apply IH, Hc].
    intros x Hx. apply Qle_trans with v; assumption. }
  split.
  - exists ts. split; [exact Hvs |].
    pose proof (Hlow 85 ts Hchain) as H85.
    rewrite Forall_forall in *. intros v Hv. split; [apply H85, Hv | apply Hall, Hv].
  - rewrite Hvs. cbn [nondecreasing chain]. split; [discriminate |].
    apply chain_app; [exact Hchain |].
    split; [| exact I]. apply last_bounded; [discriminate | exact Hall].
Qed.

(** X14, witness: a second call, after an engine that reported 0% and 3%. *)
Lemma X14_witness_call_after_ready :
  let file := mkFile "a.docx" 2048 "" "" in
  let sc := engine_ok [(0, "Starting"); (3, "Loading")] 1700 "%PDF" in
  let st1 := snd (process Document sc (one_file file) true fresh) in
  nondecreasing (map fst (reported st1 (process Document sc (one_file file) true st1))).
Proof.
  intros file sc st1.
  exact (proj2 (X14_joining_call_reports_no_engine_progress Document sc (one_file file)
                  st1 "%PDF" "a.pdf" [("format", "pdf")]
                  ltac:(discriminate) eq_refl)).
Defined.

(** ** Validation verdicts *)

Lemma valid_file_codes (fam : Family) (sc : Scenario) (file : File) (cb : bool)
    (st : State) :
  Js.includes (validExts fam) (ext_of file) = true ->
  (size file <= MAX_FILE_SIZE)%N ->
  error_code_of (process fam sc (one_file file) cb st) = None
  \/ error_code_of (process fam sc (one_file file) cb st) = Some PROCESSING_CANCELLED
  \/ error_code_of (process fam sc (one_file file) cb st) = Some PROCESSING_FAILED.
Proof.
  intros Hext Hlt. unfold error_code_of.
  destruct (provider_result fam sc st) as [e | conv] eqn:Hprov.
  { rewrite (process_provider_fails fam sc file cb st e Hext Hlt Hprov). auto. }
  destruct (cancel_while_loading sc) eqn:Hcl.
  { rewrite (process_cancelled_while_loading fam sc file cb st conv Hext Hlt Hprov Hcl).
    auto. }
  destruct conv as [h |].
  2:{ rewrite (process_null_converter_state fam sc file cb st Hext Hlt Hprov Hcl). auto. }
  rewrite (process_converts_exactly fam sc file cb st h Hext Hlt Hprov Hcl).
  cbv zeta. cbn [fst].
  destruct (snd (race (convert_outcome sc))); [auto |].
  destruct (cancel_while_converting sc); auto.
Qed.

(** X15: for a single file the validation verdicts are exact:
    [FILE_TYPE_INVALID] is returned exactly when the extension is not
    whitelisted, [INVALID_OPTIONS] exactly when the extension is whitelisted
    and the size exceeds 52,428,800 bytes; a file of exactly 52,428,800
    bytes passes. *)
Theorem X15_validation_verdicts :
  forall (fam : Family) (sc : Scenario) (file : File) (cb : bool) (st : State),
    let verdict := error_code_of (process fam sc (one_file file) cb st) in
    (verdict = Some FILE_TYPE_INVALID
     <-> Js.includes (validExts fam) (ext_of file) = false)
    /\ (verdict = Some INVALID_OPTIONS
        <-> Js.includes (validExts fam) (ext_of file) = true
            /\ (52428800 < size file)%N)
    /\ (Js.includes (validExts fam) (ext_of file) = true ->
        size file = 52428800%N ->
        verdict <> Some INVALID_OPTIONS /\ verdict <> Some FILE_TYPE_INVALID).
Proof.
  intros fam sc file cb st verdict.
  assert (Hcases :
    (Js.includes (validExts fam) (ext_of file) = false
     /\ verdict = Some FILE_TYPE_INVALID)
    \/ (Js.includes (validExts fam) (ext_of file) = true
        /\ (MAX_FILE_SIZE < size file)%N /\ verdict = Some INVALID_OPTIONS)
    \/ (Js.includes (validExts fam) (ext_of file) = true
        /\ (size file <= MAX_FILE_SIZE)%N
        /\ (verdict = None \/ verdict = Some PROCESSING_CANCELLED
            \/ verdict = Some PROCESSING_FAILED))).
  { unfold verdict.
    destruct (Js.includes (validExts fam) (ext_of file)) eqn:Hext.
    - destruct (N.ltb MAX_FILE_SIZE (size file)) eqn:Hlt.
      + right. left. apply N.ltb_lt in Hlt as Hlt'.
        unfold error_code_of. rewrite process_enters. cbn [one_file files].
        rewrite Hext, Hlt. auto.
      + right. right. apply N.ltb_ge in Hlt.
        split; [reflexivity | split; [exact Hlt |]].
        apply valid_file_codes; assumption.
    - left. unfold error_code_of. rewrite process_enters. cbn [one_file files].
      rewrite Hext. auto. }
  change 52428800%N with MAX_FILE_SIZE.
  clearbody verdict.
  destruct Hcases as [(Hext & Hv) | [(Hext & Hlt & Hv) | (Hext & Hle & Hv)]].
  - rewrite Hext, Hv.
    split; [split; auto |].
    split; [split; [discriminate | intros [H _]; discriminate H] |].
    intro H. discriminate H.
  - rewrite Hext, Hv.
    split; [split; discriminate |].
    split; [split; auto |].
    intros _ Hsz. rewrite Hsz in Hlt. exfalso. revert Hlt. apply N.lt_irrefl.
  - rewrite Hext.
    assert (Hv1 : verdict <> Some FILE_TYPE_INVALID)
      by (destruct Hv as [-> | [-> | ->]]; discriminate).
    assert (Hv2 : verdict <> Some INVALID_OPTIONS)
      by (destruct Hv as [-> | [-> | ->]]; discriminate).
    split; [split; [intro H; contradiction | discriminate] |].
    split; [split; [intro H; contradiction |] | intros _ _; split; assumption].
    intros [_ Hlt]. exfalso. apply N.lt_nge in Hlt. apply Hlt. exact Hle.
Qed.

(** X15, witness: a file of exactly the limit. *)
Lemma X15_witness_file_at_the_limit :
  let file := mkFile "deck.odp" 52428800 "" "" in
  error_code_of (process Presentation (engine_ok [] 1000 "%PDF") (one_file file) true fresh)
  <> Some INVALID_OPTIONS.
Proof.
  intro file.
  exact (proj1 (proj2 (proj2 (X15_validation_verdicts Presentation
                                (engine_ok [] 1000 "%PDF") file true fresh))
                      eq_refl eq_refl)).
Defined.

(** ** The convenience functions *)

(** X16: [pptxToPDF] and [wordToPDF] behave as [process] of the respective
    processor on the one-file input, whatever processor object they create,
    and so never answer with the "exactly one" message. *)
Theorem X16_convenience_functions :
  forall (sc : Scenario) (file : File) (cb : bool) (st : State),
    pptxToPDF sc file cb st = process Presentation sc (one_file file) cb st
    /\ wordToPDF sc file cb st = process Document sc (one_file file) cb st
    /\ (forall out, fst (pptxToPDF sc file cb st) = inr (Failure out) ->
                    message out <> msg_one_file Presentation)
    /\ (forall out, fst (wordToPDF sc file cb st) = inr (Failure out) ->
                    message out <> msg_one_file Document).
Proof.
  intros sc file cb st.
  assert (Hp : pptxToPDF sc file cb st = process Presentation sc (one_file file) cb st)
    by (unfold pptxToPDF, bind, modify; apply process_forgets_processor).
  assert (Hw : wordToPDF sc file cb st = process Document sc (one_file file) cb st)
    by (unfold wordToPDF, bind, modify; apply process_forgets_processor).
  assert (Hmsg : forall fam out,
             fst (process fam sc (one_file file) cb st) = inr (Failure out) ->
             message out <> msg_one_file fam).
  { intros fam out Hrun.
    destruct (Js.includes (validExts fam) (ext_of file)) eqn:Hext;
      [| rewrite process_enters in Hrun; cbn [one_file files] in Hrun;
         rewrite Hext in Hrun; cbn [negb fst] in Hrun; injection Hrun as <-;
         destruct fam; discriminate].
    destruct (N.ltb MAX_FILE_SIZE (size file)) eqn:Hlt;
      [rewrite process_enters in Hrun; cbn [one_file files] in Hrun;
       rewrite Hext, Hlt in Hrun; cbn [negb fst] in Hrun; injection Hrun as <-;
       destruct fam; discriminate |].
    apply N.ltb_ge in Hlt.
    destruct (provider_result fam sc st) as [e | conv] eqn:Hprov.
    { rewrite (process_provider_fails fam sc file cb st e Hext Hlt Hprov) in Hrun.
      injection Hrun as <-. destruct fam; discriminate. }
    destruct (cancel_while_loading sc) eqn:Hcl.
    { rewrite (process_cancelled_while_loading fam sc file cb st conv Hext Hlt Hprov Hcl)
        in Hrun.
      injection Hrun as <-. destruct fam; discriminate. }
    destruct conv as [h |].
    2:{ rewrite (process_null_converter_state fam sc file cb st Hext Hlt Hprov Hcl)
          in Hrun.
        injection Hrun as <-. destruct fam; discriminate. }
    rewrite (process_converts_exactly fam sc file cb st h Hext Hlt Hprov Hcl) in Hrun.
    cbv zeta in Hrun. cbn [fst] in Hrun.
    destruct (snd (race (convert_outcome sc))).
    - injection Hrun as <-. destruct fam; discriminate.
    - destruct (cancel_while_converting sc); [| discriminate Hrun].
      injection Hrun as <-. destruct fam; discriminate. }
  split; [exact Hp | split; [exact Hw |]].
  split; intros out Hrun; [rewrite Hp in Hrun | rewrite Hw in Hrun];
    apply (Hmsg _ out Hrun).
Qed.

(** ** Letter case of the file name *)

Lemma toLowerCase_char_idempotent (c : ascii) :
  Js.toLowerCase_char (Js.toLowerCase_char c) = Js.toLowerCase_char c.
Proof.
  destruct c as [[] [] [] [] [] [] [] []]; reflexivity.
Qed.

Lemma toLowerCase_idempotent (s : string) :
  Js.toLowerCase (Js.toLowerCase s) = Js.toLowerCase s.
Proof.
  induction s as [| c s IH]; cbn [Js.toLowerCase]; [reflexivity |].
  rewrite toLowerCase_char_idempotent, IH. reflexivity.
Qed.

Lemma split_toLowerCase (s : string) :
  Js.split "." (Js.toLowerCase s) = map Js.toLowerCase (Js.split "." s).
Proof.
  induction s as [| c s IH]; [reflexivity |].
  cbn [Js.toLowerCase Js.split]. rewrite toLowerCase_char_dot, IH.
  destruct (Ascii.eqb c "."); [reflexivity |].
  destruct (Js.split "." s) as [| seg rest]; reflexivity.
Qed.

Lemma pop_map (f : string -> string) (l : list string) :
  Js.pop (map f l) = option_map f (Js.pop l).
Proof.
  unfold Js.pop. rewrite <- map_rev. destruct (rev l); reflexivity.
Qed.

Lemma ext_of_lowercased_name (f : File) :
  ext_of (mkFile (Js.toLowerCase (name f)) (size f) (type f) (content f)) = ext_of f.
Proof.
  unfold ext_of. cbn [name]. rewrite split_toLowerCase, pop_map.
  destruct (Js.pop (Js.split "." (name f))) as [seg |]; cbn [option_map];
    [rewrite toLowerCase_idempotent |]; reflexivity.
Qed.

Lemma replace_toLowerCase (alts : list string) (s : string) :
  Js.replace_dot_alt_at_end alts (Js.toLowerCase s)
  = Js.toLowerCase (Js.replace_dot_alt_at_end alts s).
Proof.
  induction s as [| c s IH]; [reflexivity |].
  cbn [Js.toLowerCase Js.replace_dot_alt_at_end Js.dot_alt_to_end].
  rewrite toLowerCase_char_dot, toLowerCase_idempotent.
  destruct (Ascii.eqb c "." && Js.includes alts (Js.toLowerCase s))%bool;
    [reflexivity |].
  cbn [Js.toLowerCase]. rewrite IH. reflexivity.
Qed.

(** X17: two file names that differ only in letter case get the same
    extension, hence the same type verdict, and base names that agree up to
    letter case and in length. *)
Theorem X17_letter_case_of_the_name_is_irrelevant :
  forall (fam : Family) (f g : File),
    Js.toLowerCase (name f) = Js.toLowerCase (name g) ->
    ext_of f = ext_of g
    /\ Js.includes (validExts fam) (ext_of f) = Js.includes (validExts fam) (ext_of g)
    /\ Js.toLowerCase (baseName fam f) = Js.toLowerCase (baseName fam g)
    /\ String.length (baseName fam f) = String.length (baseName fam g).
Proof.
  intros fam f g Hname.
  assert (Hext : ext_of f = ext_of g).
  { rewrite <- (ext_of_lowercased_name f), <- (ext_of_lowercased_name g).
    unfold ext_of. cbn [name]. rewrite Hname. reflexivity. }
  assert (Hbase : Js.toLowerCase (baseName fam f) = Js.toLowerCase (baseName fam g)).
  { unfold baseName. rewrite <- !replace_toLowerCase, Hname. reflexivity. }
  assert (Hlen : forall s, String.length (Js.toLowerCase s) = String.length s).
  { induction s as [| c s IH]; cbn [Js.toLowerCase String.length]; congruence. }
  split; [exact Hext |].
  split; [rewrite Hext; reflexivity |].
  split; [exact Hbase |].
  rewrite <- (Hlen (baseName fam f)), <- (Hlen (baseName fam g)), Hbase. reflexivity.
Qed.

(** X17, witness: upper and mixed case. *)
Lemma X17_witness_upper_and_mixed_case :
  ext_of (mkFile "QUARTERLY.REPORT.DocX" 10 "" "")
  = ext_of (mkFile "quarterly.report.docx" 99 "x" "y").
Proof.
  exact (proj1 (X17_letter_case_of_the_name_is_irrelevant Document
                  (mkFile "QUARTERLY.REPORT.DocX" 10 "" "")
                  (mkFile "quarterly.report.docx" 99 "x" "y") eq_refl)).
Defined.

(** ** The size message just above the limit *)

(** X18: for a whitelisted file of 52,428,801 to 52,481,228 bytes the
    rejection message reads "File is too large (50.0 MB). Maximum supported
    size is 50 MB.": the size shown is rounded to one decimal. *)
Theorem X18_size_message_just_above_the_limit :
  forall (fam : Family) (sc : Scenario) (file : File) (cb : bool) (st : State),
    Js.includes (validExts fam) (ext_of file) = true ->
    (52428800 < size file)%N ->
    (size file <= 52481228)%N ->
    exists d,
      fst (process fam sc (one_file file) cb st)
      = inr (Failure (mkError INVALID_OPTIONS
               "File is too large (50.0 MB). Maximum supported size is 50 MB." d)).
Proof.
  intros fam sc file cb st Hext Hlo Hhi.
  rewrite process_enters. cbn [one_file files]. rewrite Hext. cbn [negb].
  assert (Hlt : (MAX_FILE_SIZE <? size file)%N = true) by (apply N.ltb_lt; exact Hlo).
  rewrite Hlt. cbn [fst]. eexists. unfold createErrorOutput. do 3 f_equal.
  unfold msg_too_large, Js.toFixed1_MB.
  assert (Htenths : Js.tenths_of_MB (size file) = 500%N).
  { unfold Js.tenths_of_MB.
    pose proof (N.div_mod (20 * size file + 1048576) 2097152 ltac:(discriminate)) as Hdm.
    pose proof (N.mod_lt (20 * size file + 1048576) 2097152 ltac:(discriminate)) as Hm.
    set (q := ((20 * size file + 1048576) / 2097152)%N) in *.
    set (r := ((20 * size file + 1048576) mod 2097152)%N) in *.
    clearbody q r. lia. }
  rewrite Htenths. reflexivity.
Qed.

(** X18, witness: one byte over the limit. *)
Lemma X18_witness_one_byte_over :
  exists d,
    fst (process Presentation (engine_ok [] 1000 "%PDF")
           (one_file (mkFile "deck.pptx" 52428801 "" "")) true fresh)
    = inr (Failure (mkError INVALID_OPTIONS
             "File is too large (50.0 MB). Maximum supported size is 50 MB." d)).
Proof.
  exact (X18_size_message_just_above_the_limit Presentation (engine_ok [] 1000 "%PDF")
           (mkFile "deck.pptx" 52428801 "" "") true fresh
           eq_refl eq_refl ltac:(discriminate)).
Defined.

(** X9, witness: a deck of 2 KiB converted in one second. *)
Lemma X9_witness_plain_success :
  fst (process Presentation (engine_ok [] 1000 "%PDF")
         (one_file (mkFile "deck.pptx" 2048 "" "")) true fresh)
  = inr (Success "%PDF" "deck.pdf" [("format", "pdf")]).
Proof.
  apply (proj2 (X9_success_exactly_when Presentation (engine_ok [] 1000 "%PDF")
                  (one_file (mkFile "deck.pptx" 2048 "" "")) true fresh
                  "%PDF" "deck.pdf" [("format", "pdf")])).
  exists (mkFile "deck.pptx" 2048 "" ""), 1%nat.
  repeat (split; [first [reflexivity | discriminate] |]).
  split; [exists 1000%N; split; [reflexivity | discriminate] |].
  repeat split.
Defined.

(** X16, witness: a text file handed to [pptxToPDF]. *)
Lemma X16_witness_text_file :
  fst (pptxToPDF (engine_ok [] 1000 "%PDF") (mkFile "notes.txt" 10 "" "") true fresh)
  = inr (Failure (mkError FILE_TYPE_INVALID
           "Invalid file type. Please upload .pptx, .ppt, or .odp."
           (Some "Received: notes.txt")))
  /\ "Invalid file type. Please upload .pptx, .ppt, or .odp."
     <> msg_one_file Presentation.
Proof.
  split; [reflexivity |].
  exact (proj1 (proj2 (proj2 (X16_convenience_functions (engine_ok [] 1000 "%PDF")
                                (mkFile "notes.txt" 10 "" "") true fresh)))
               (mkError FILE_TYPE_INVALID
                  "Invalid file type. Please upload .pptx, .ppt, or .odp."
                  (Some "Received: notes.txt"))
               eq_refl).
Defined.
